(** * repairshop: the validation schemas, the form defaults, the customer
    form page and the migration runner, embedded and verified.

    Sources embedded here:
    - [zod-schema/customer.ts], [zod-schema/ticket.ts]  (derived validators)
    - [db/schema.ts]                                    (table definitions)
    - [app/(rs)/tickets/form/TicketForm.tsx]            (default values)
    - [app/(rs)/customers/form/page.tsx]                (page routing)
    - [db/migrate.ts]                                   (migration runner)

    The validators are built with two third-party libraries, a schema
    validator and a deriver of schemas from table definitions.  Their
    behaviour is modelled in [Zod] and [DrizzleZod], as far as the
    application's schemas reach; by-id fetching and the built-in [parseInt]
    are parameters of the page. *)

From Stdlib Require Import ZArith QArith NArith List String Ascii Bool Lia.
From stdpp Require Import base option list strings pretty gmap.
Import ListNotations.

Local Open Scope list_scope.

(* ===================================================================== *)
(** * JavaScript strings *)
(* ===================================================================== *)

(** A JavaScript string is a sequence of UTF-16 code units; [.length]
    counts code units and a regular expression without the [u] flag
    consumes one code unit per character. *)
Abbreviation jsstring := (list N).

Definition js (s : string) : jsstring :=
  map N_of_ascii (list_ascii_of_string s).

Definition jsstring_eqb (a b : jsstring) : bool :=
  bool_decide (a = b).

(* ===================================================================== *)
(** * Regular expressions *)
(* ===================================================================== *)

Module Regex.

(** Abstract syntax of the fragment of JavaScript patterns the schemas
    use: character classes, concatenation, alternation, iteration. *)
Inductive regex : Type :=
| Void
| Eps
| Cls (p : N -> bool)
| Cat (r1 r2 : regex)
| Alt (r1 r2 : regex)
| Star (r : regex).

Definition chr (c : N) : regex := Cls (N.eqb c).

(** [r?] *)
Definition opt (r : regex) : regex := Alt r Eps.

(** [r+] *)
Definition plus (r : regex) : regex := Cat r (Star r).

(** [r{n}] *)
Fixpoint rep (n : nat) (r : regex) : regex :=
  match n with
  | O => Eps
  | S k => Cat r (rep k r)
  end.

(** [r{n,}] *)
Definition rep_min (n : nat) (r : regex) : regex := Cat (rep n r) (Star r).

(** [\d] is [0-9] in JavaScript. *)
Definition is_digit (c : N) : bool := ((48 <=? c) && (c <=? 57))%N.

(** [A-Z] under the [i] flag is [A-Za-z]: canonicalisation never maps a
    code unit above 127 to one below 128. *)
Definition is_alpha (c : N) : bool :=
  (((65 <=? c) && (c <=? 90)) || ((97 <=? c) && (c <=? 122)))%N.

Definition digit : regex := Cls is_digit.

Fixpoint nullable (r : regex) : bool :=
  match r with
  | Void => false
  | Eps => true
  | Cls _ => false
  | Cat r1 r2 => nullable r1 && nullable r2
  | Alt r1 r2 => nullable r1 || nullable r2
  | Star _ => true
  end.

Fixpoint deriv (c : N) (r : regex) : regex :=
  match r with
  | Void => Void
  | Eps => Void
  | Cls p => if p c then Eps else Void
  | Cat r1 r2 =>
      if nullable r1
      then Alt (Cat (deriv c r1) r2) (deriv c r2)
      else Cat (deriv c r1) r2
  | Alt r1 r2 => Alt (deriv c r1) (deriv c r2)
  | Star r1 => Cat (deriv c r1) (Star r1)
  end.

(** Whole-string match: what [RegExp.prototype.test] computes for a
    pattern anchored with [^] and [$] (no [m] flag). *)
Fixpoint test (r : regex) (s : jsstring) : bool :=
  match s with
  | [] => nullable r
  | c :: s' => test (deriv c r) s'
  end.

(** The language of a pattern. *)
Inductive Matches : regex -> jsstring -> Prop :=
| MEps : Matches Eps []
| MCls p c : p c = true -> Matches (Cls p) [c]
| MCat r1 r2 s1 s2 :
    Matches r1 s1 -> Matches r2 s2 -> Matches (Cat r1 r2) (s1 ++ s2)
| MAltL r1 r2 s : Matches r1 s -> Matches (Alt r1 r2) s
| MAltR r1 r2 s : Matches r2 s -> Matches (Alt r1 r2) s
| MStar0 r : Matches (Star r) []
| MStarS r s1 s2 :
    Matches r s1 -> Matches (Star r) s2 -> Matches (Star r) (s1 ++ s2).

Create HintDb regex.
#[export] Hint Constructors Matches : regex.

Ltac minv H := inversion H; subst; clear H.

Lemma nullable_sound r : nullable r = true -> Matches r [].
Proof.
  induction r; simpl; intros Hn; try discriminate; auto with regex.
  - apply andb_prop in Hn as [H1 H2].
    change (@nil N) with (@nil N ++ []). auto with regex.
  - apply orb_prop in Hn as [H1 | H2]; auto with regex.
Qed.

Lemma nullable_complete r s : Matches r s -> s = [] -> nullable r = true.
Proof.
  induction 1; intros Hs; simpl; try discriminate; auto.
  - apply app_eq_nil in Hs as [-> ->].
    rewrite IHMatches1, IHMatches2; auto.
  - rewrite IHMatches; auto.
  - rewrite IHMatches; auto using orb_true_r.
Qed.

Lemma deriv_sound c r : forall s, Matches (deriv c r) s -> Matches r (c :: s).
Proof.
  induction r; simpl; intros s H.
  - minv H.
  - minv H.
  - destruct (p c) eqn:Hp; minv H. auto with regex.
  - destruct (nullable r1) eqn:Hn.
    + minv H.
      * minv H3. change (c :: s1 ++ s2) with ((c :: s1) ++ s2).
        auto with regex.
      * change (c :: s) with ([] ++ c :: s).
        constructor; auto using nullable_sound.
    + minv H. change (c :: s1 ++ s2) with ((c :: s1) ++ s2).
      auto with regex.
  - minv H; auto with regex.
  - minv H. change (c :: s1 ++ s2) with ((c :: s1) ++ s2).
    auto with regex.
Qed.

Lemma deriv_complete r s0 :
  Matches r s0 -> forall c s, s0 = c :: s -> Matches (deriv c r) s.
Proof.
  induction 1; intros c0 t Hs; simpl; try discriminate.
  - injection Hs as -> <-. rewrite H. constructor.
  - destruct s1 as [|a s1].
    + simpl in Hs. subst s2.
      rewrite (nullable_complete _ _ H eq_refl).
      apply MAltR. auto.
    + simpl in Hs. injection Hs as -> <-.
      destruct (nullable r1).
      * apply MAltL. constructor; auto.
      * constructor; auto.
  - apply MAltL. auto.
  - apply MAltR. auto.
  - destruct s1 as [|a s1].
    + simpl in Hs. subst s2. apply (IHMatches2 c0 t eq_refl).
    + simpl in Hs. injection Hs as -> <-.
      constructor; auto.
Qed.

(** The matcher decides the language. *)
Lemma test_Matches r s : test r s = true <-> Matches r s.
Proof.
  revert r. induction s as [|c s IH]; intros r; simpl.
  - split; [apply nullable_sound | intros H; eapply nullable_complete; eauto].
  - rewrite IH. split.
    + apply deriv_sound.
    + intros H. eapply deriv_complete; eauto.
Qed.

End Regex.

(* ===================================================================== *)
(** * The patterns of the customer schema *)
(* ===================================================================== *)

Module Patterns.
Import Regex.

Definition hyphen : N := 45.
Definition dot : N := 46.
Definition at_sign : N := 64.

(** [/^\d{5}(-\d{4})?$/] *)
Definition zipCodePattern : regex :=
  Cat (rep 5 digit) (opt (Cat (chr hyphen) (rep 4 digit))).

(** [/^\d{3}-\d{3}-\d{4}$/] *)
Definition phonePattern : regex :=
  Cat (rep 3 digit)
    (Cat (chr hyphen)
       (Cat (rep 3 digit)
          (Cat (chr hyphen) (rep 4 digit)))).

(** A negative lookahead [(?!r)] at the start of the input: no prefix of
    the input matches [r]. *)
Definition neg_lookahead (r : regex) (s : jsstring) : bool :=
  negb (existsb (fun n => test r (firstn n s)) (seq 0 (S (length s)))).

(** [.] matches any code unit but a line terminator. *)
Definition not_line_terminator (c : N) : bool :=
  negb ((c =? 10) || (c =? 13) || (c =? 8232) || (c =? 8233))%N.

Definition is_alnum (c : N) : bool := is_alpha c || is_digit c.

(** [[A-Z0-9_'+\-\.]] under [i] *)
Definition local_char (c : N) : bool :=
  is_alnum c || (c =? 95)%N || (c =? 39)%N || (c =? 43)%N
  || (c =? hyphen)%N || (c =? dot)%N.

(** [[A-Z0-9_+-]] under [i] *)
Definition local_last (c : N) : bool :=
  is_alnum c || (c =? 95)%N || (c =? 43)%N || (c =? hyphen)%N.

(** [[A-Z0-9\-]] under [i] *)
Definition domain_char (c : N) : bool := is_alnum c || (c =? hyphen)%N.

(** Library model: the email-format check of the validation
    library, whose source is not part of the repository.  The library's
    pattern, case-insensitive and anchored at both ends, reads: not
    starting with a dot; no two dots in a row; any number of
    [A-Z0-9_'+-.]; one of [A-Z0-9_+-]; an at sign; one or more labels
    ([A-Z0-9], any number of [A-Z0-9-], a dot); two or more [A-Z]. *)
Definition emailBody : regex :=
  Cat (Star (Cls local_char))
    (Cat (Cls local_last)
       (Cat (chr at_sign)
          (Cat (plus (Cat (Cls is_alnum)
                        (Cat (Star (Cls domain_char)) (chr dot))))
             (rep_min 2 (Cls is_alpha))))).

Definition isEmail (s : jsstring) : bool :=
  neg_lookahead (chr dot) s
  && neg_lookahead (Cat (Star (Cls not_line_terminator))
                      (Cat (chr dot) (chr dot))) s
  && test emailBody s.

(** ** What the patterns accept *)

Definition all_digits (s : jsstring) : Prop :=
  Forall (fun c => is_digit c = true) s.

Lemma Matches_chr c s : Matches (chr c) s <-> s = [c].
Proof.
  unfold chr. split.
  - intros H. minv H. apply N.eqb_eq in H1. congruence.
  - intros ->. constructor. apply N.eqb_refl.
Qed.

Lemma Matches_rep_cls p n :
  forall s, Matches (rep n (Cls p)) s <->
            length s = n /\ Forall (fun c => p c = true) s.
Proof.
  induction n as [|n IH]; intros s; simpl.
  - split.
    + intros H. minv H. split; [reflexivity | constructor].
    + intros [Hl _]. destruct s; [constructor | discriminate].
  - split.
    + intros H. minv H. minv H2. apply IH in H4 as [Hl Hf].
      simpl. split; [congruence | constructor; assumption].
    + intros [Hl Hf]. destruct s as [|c s]; [discriminate|].
      inversion Hf; subst. injection Hl as Hl.
      change (c :: s) with ([c] ++ s).
      constructor; [constructor; assumption | apply IH; auto].
Qed.

Lemma Matches_cat r1 r2 s :
  Matches (Cat r1 r2) s <->
  exists s1 s2, s = s1 ++ s2 /\ Matches r1 s1 /\ Matches r2 s2.
Proof.
  split.
  - intros H. minv H. eauto.
  - intros (s1 & s2 & -> & H1 & H2). constructor; assumption.
Qed.

Lemma Matches_opt r s : Matches (opt r) s <-> Matches r s \/ s = [].
Proof.
  unfold opt. split.
  - intros H. minv H; [left; assumption | right]. minv H3. reflexivity.
  - intros [H | ->]; [apply MAltL; assumption | apply MAltR; constructor].
Qed.

(** A zip code is five digits, optionally followed by a hyphen and four
    more digits. *)
Definition zip_shape (s : jsstring) : Prop :=
  (length s = 5 /\ all_digits s) \/
  (exists a b, s = a ++ hyphen :: b /\
               length a = 5 /\ all_digits a /\
               length b = 4 /\ all_digits b).

(** A phone number is [ddd-ddd-dddd]. *)
Definition phone_shape (s : jsstring) : Prop :=
  exists a b c, s = a ++ hyphen :: b ++ hyphen :: c /\
                length a = 3 /\ all_digits a /\
                length b = 3 /\ all_digits b /\
                length c = 4 /\ all_digits c.

Lemma zipCodePattern_shape s :
  test zipCodePattern s = true <-> zip_shape s.
Proof.
  rewrite test_Matches. unfold zipCodePattern, zip_shape, all_digits, digit.
  rewrite Matches_cat. split.
  - intros (a & t & -> & Ha & Ht).
    apply Matches_rep_cls in Ha as [Hla Hda].
    apply Matches_opt in Ht as [Ht | ->].
    + right. apply Matches_cat in Ht as (h & b & -> & Hh & Hb).
      apply Matches_chr in Hh as ->.
      apply Matches_rep_cls in Hb as [Hlb Hdb].
      exists a, b. simpl. auto.
    + left. rewrite app_nil_r. auto.
  - intros [[Hl Hd] | (a & b & -> & Hla & Hda & Hlb & Hdb)].
    + exists s, []. rewrite app_nil_r. split; [reflexivity|].
      split; [apply Matches_rep_cls; auto | apply Matches_opt; auto].
    + exists a, (hyphen :: b). split; [reflexivity|].
      split; [apply Matches_rep_cls; auto|].
      apply Matches_opt. left. apply Matches_cat.
      exists [hyphen], b. split; [reflexivity|].
      split; [apply Matches_chr; reflexivity | apply Matches_rep_cls; auto].
Qed.

Lemma phonePattern_shape s :
  test phonePattern s = true <-> phone_shape s.
Proof.
  rewrite test_Matches. unfold phonePattern, phone_shape, all_digits, digit.
  split.
  - intros H.
    apply Matches_cat in H as (a & t1 & -> & Ha & H).
    apply Matches_cat in H as (h1 & t2 & -> & Hh1 & H).
    apply Matches_cat in H as (b & t3 & -> & Hb & H).
    apply Matches_cat in H as (h2 & c & -> & Hh2 & Hc).
    apply Matches_chr in Hh1 as ->. apply Matches_chr in Hh2 as ->.
    apply Matches_rep_cls in Ha as [? ?].
    apply Matches_rep_cls in Hb as [? ?].
    apply Matches_rep_cls in Hc as [? ?].
    exists a, b, c. simpl. auto 10.
  - intros (a & b & c & -> & Hla & Hda & Hlb & Hdb & Hlc & Hdc).
    apply Matches_cat. exists a, (hyphen :: b ++ hyphen :: c).
    split; [reflexivity|]. split; [apply Matches_rep_cls; auto|].
    apply Matches_cat. exists [hyphen], (b ++ hyphen :: c).
    split; [reflexivity|]. split; [apply Matches_chr; reflexivity|].
    apply Matches_cat. exists b, (hyphen :: c).
    split; [reflexivity|]. split; [apply Matches_rep_cls; auto|].
    apply Matches_cat. exists [hyphen], c.
    split; [reflexivity|]. split; [apply Matches_chr; reflexivity|].
    apply Matches_rep_cls; auto.
Qed.

Lemma zip_shape_length s : zip_shape s -> length s = 5 \/ length s = 10.
Proof.
  intros [[Hl _] | (a & b & -> & Hla & _ & Hlb & _)]; [left; assumption|].
  right. rewrite length_app. simpl. lia.
Qed.

(** Every string the email check accepts contains an [@]. *)
Lemma isEmail_has_at s : isEmail s = true -> In at_sign s.
Proof.
  unfold isEmail. intros H.
  apply andb_prop in H as [_ H].
  apply test_Matches in H. unfold emailBody in H.
  apply Matches_cat in H as (s1 & t1 & -> & _ & H).
  apply Matches_cat in H as (s2 & t2 & -> & _ & H).
  apply Matches_cat in H as (s3 & t3 & -> & H & _).
  apply Matches_chr in H as ->.
  apply in_or_app. right. apply in_or_app. right. left. reflexivity.
Qed.

Example email_ok : isEmail (js "john@example.com") = true.
Proof. vm_compute. reflexivity. Qed.
Example email_no_tld : isEmail (js "john@example") = false.
Proof. vm_compute. reflexivity. Qed.
Example email_no_at : isEmail (js "notanemail") = false.
Proof. vm_compute. reflexivity. Qed.
Example email_leading_dot : isEmail (js ".john@example.com") = false.
Proof. vm_compute. reflexivity. Qed.
Example email_double_dot : isEmail (js "jo..hn@example.com") = false.
Proof. vm_compute. reflexivity. Qed.

End Patterns.

(* ===================================================================== *)
(** * How a JavaScript call ends *)
(* ===================================================================== *)

(** Values a validator can be handed, split the way the validation
    library classifies its input ([getParsedType]).  [JNumber] carries the
    finite numbers; [NaN] has a class of its own.  The two infinities are
    left out: the library's major versions disagree on whether its number
    validator takes them. *)
#[warnings="-register-all"]
Inductive jsval : Type :=
| JUndefined
| JNull
| JNaN
| JBoolean (b : bool)
| JNumber (x : Q)
| JBigInt (z : Z)
| JString (s : jsstring)
| JDate (time : option Z)
| JArray (items : list jsval)
| JObject (props : list (jsstring * jsval))
| JFunction.

(** What [throw] can raise: an instance of [Error], or any other value. *)
Inductive thrown : Type :=
| ErrorObject (name message : string)
| NonError (v : jsval).

Definition instanceof_Error (e : thrown) : bool :=
  match e with
  | ErrorObject _ _ => true
  | NonError _ => false
  end.

(** How evaluating a call ends: with a value, or with a raised exception. *)
Inductive completion (A : Type) : Type :=
| Normal (a : A)
| Throw (e : thrown).
Arguments Normal {A} a.
Arguments Throw {A} e.

(** Property read [obj[key]]: the first binding of the key, [undefined]
    when there is none. *)
Fixpoint get_prop (key : jsstring) (props : list (jsstring * jsval)) : jsval :=
  match props with
  | [] => JUndefined
  | (k, v) :: rest => if jsstring_eqb k key then v else get_prop key rest
  end.

(** [key in obj] *)
Definition has_prop (key : jsstring) (props : list (jsstring * jsval)) : bool :=
  existsb (fun kv => jsstring_eqb (fst kv) key) props.

(* ===================================================================== *)
(** * The validation library *)
(* ===================================================================== *)

(** Library model: the schema-validation library the repository
    builds its validators with (its source is not part of the repository).
    Schemas are values; [safeParse] interprets them.  The structure follows
    the library: a parse reports a status and the issues it added, checks on
    a string all run and each failing one adds an issue, and a failed parse
    is returned as a value. *)
Module Zod.
Import Regex.

Inductive ZodParsedType : Type :=
| PT_string | PT_nan | PT_number | PT_boolean | PT_date | PT_bigint
| PT_function | PT_undefined | PT_null | PT_array | PT_object.

Definition getParsedType (data : jsval) : ZodParsedType :=
  match data with
  | JUndefined => PT_undefined
  | JNull => PT_null
  | JNaN => PT_nan
  | JBoolean _ => PT_boolean
  | JNumber _ => PT_number
  | JBigInt _ => PT_bigint
  | JString _ => PT_string
  | JDate _ => PT_date
  | JArray _ => PT_array
  | JObject _ => PT_object
  | JFunction => PT_function
  end.

Definition parsedType_name (t : ZodParsedType) : string :=
  match t with
  | PT_string => "string" | PT_nan => "nan" | PT_number => "number"
  | PT_boolean => "boolean" | PT_date => "date" | PT_bigint => "bigint"
  | PT_function => "function" | PT_undefined => "undefined"
  | PT_null => "null" | PT_array => "array" | PT_object => "object"
  end%string.

Inductive ZodIssueCode : Type :=
| invalid_type | invalid_literal | invalid_union | invalid_string
| invalid_date | too_small | too_big.

Record ZodIssue : Type := mkIssue {
  code : ZodIssueCode;
  path : list string;
  message : string
}.

Inductive StringCheck : Type :=
| ck_min (value : nat) (msg : option string)
| ck_max (value : nat) (msg : option string)
| ck_length (value : nat) (msg : option string)
| ck_email (msg : option string)
| ck_regex (re : regex) (msg : option string).

Inductive NumberCheck : Type :=
| nk_min (value : Z)
| nk_max (value : Z)
| nk_int.

#[warnings="-register-all"]
Inductive ZodType : Type :=
| ZodString (checks : list StringCheck)
| ZodNumber (checks : list NumberCheck)
| ZodBoolean
| ZodDate
| ZodLiteral (value : string)
| ZodUnion (options : list ZodType)
| ZodOptional (inner : ZodType)
| ZodNullable (inner : ZodType).

(** An object schema: its shape, in declaration order. *)
Record ZodObject : Type := mkObject { shape : list (string * ZodType) }.

(** ** Schema builders, named after the library's methods *)

Definition z_string : ZodType := ZodString [].
Definition z_number : ZodType := ZodNumber [].
Definition z_boolean : ZodType := ZodBoolean.
Definition z_date : ZodType := ZodDate.
Definition z_literal (value : string) : ZodType := ZodLiteral value.
Definition z_union (options : list ZodType) : ZodType := ZodUnion options.

Definition add_check (ck : StringCheck) (schema : ZodType) : ZodType :=
  match schema with
  | ZodString checks => ZodString (checks ++ [ck])
  | other => other
  end.

Definition add_number_check (ck : NumberCheck) (schema : ZodType) : ZodType :=
  match schema with
  | ZodNumber checks => ZodNumber (checks ++ [ck])
  | other => other
  end.

(** [schema.min(n, message)] and its siblings *)
Definition min_ (n : nat) (msg : string) := add_check (ck_min n (Some msg)).
Definition length_ (n : nat) (msg : string) := add_check (ck_length n (Some msg)).
Definition email_ (msg : string) := add_check (ck_email (Some msg)).
Definition regex_ (re : regex) (msg : string) := add_check (ck_regex re (Some msg)).
Definition max_default (n : nat) := add_check (ck_max n None).
Definition optional (schema : ZodType) : ZodType := ZodOptional schema.
Definition nullable (schema : ZodType) : ZodType := ZodNullable schema.

(** ** Messages of the default error map

    The wording is that of the library's third major version; the
    application's own messages do not depend on it. *)

Definition quote : string := String (ascii_of_nat 34) EmptyString.

Definition message_or (custom : option string) (default : string) : string :=
  match custom with
  | Some m => m
  | None => default
  end.

Definition invalid_type_issue (p : list string) (expected : string)
    (data : jsval) : ZodIssue :=
  mkIssue invalid_type p
    (match data with
     | JUndefined => "Required"
     | _ => "Expected " ++ expected ++ ", received "
              ++ parsedType_name (getParsedType data)
     end)%string.

(** ** Parsing *)

Inductive ParseStatus : Type := valid | dirty | aborted.

Definition ParseReturn : Type := (ParseStatus * list ZodIssue)%type.

Definition OK : ParseReturn := (valid, []).
Definition INVALID (issues : list ZodIssue) : ParseReturn := (aborted, issues).

Definition run_string_check (p : list string) (s : jsstring)
    (ck : StringCheck) : list ZodIssue :=
  match ck with
  | ck_min n msg =>
      if (length s <? n)%nat
      then [mkIssue too_small p
              (message_or msg ("String must contain at least " ++ pretty n
                                 ++ " character(s)"))]
      else []
  | ck_max n msg =>
      if (n <? length s)%nat
      then [mkIssue too_big p
              (message_or msg ("String must contain at most " ++ pretty n
                                 ++ " character(s)"))]
      else []
  | ck_length n msg =>
      if (n <? length s)%nat
      then [mkIssue too_big p
              (message_or msg ("String must contain exactly " ++ pretty n
                                 ++ " character(s)"))]
      else if (length s <? n)%nat
      then [mkIssue too_small p
              (message_or msg ("String must contain exactly " ++ pretty n
                                 ++ " character(s)"))]
      else []
  | ck_email msg =>
      if Patterns.isEmail s then []
      else [mkIssue invalid_string p (message_or msg "Invalid email")]
  | ck_regex re msg =>
      if test re s then []
      else [mkIssue invalid_string p (message_or msg "Invalid")]
  end%string.

Definition is_integer (x : Q) : bool :=
  (Qnum x mod Z.pos (Qden x) =? 0)%Z.

Definition run_number_check (p : list string) (x : Q)
    (ck : NumberCheck) : list ZodIssue :=
  match ck with
  | nk_min n =>
      if Qle_bool (inject_Z n) x then []
      else [mkIssue too_small p
              ("Number must be greater than or equal to " ++ pretty n)]
  | nk_max n =>
      if Qle_bool x (inject_Z n) then []
      else [mkIssue too_big p
              ("Number must be less than or equal to " ++ pretty n)]
  | nk_int =>
      if is_integer x then []
      else [mkIssue invalid_type p "Expected integer, received float"]
  end%string.

(** All checks run, in the order they were added. *)
Definition checked (issues : list ZodIssue) : ParseReturn :=
  match issues with
  | [] => OK
  | _ => (dirty, issues)
  end.

(** The result of a union from the results of its options: the first
    valid one; failing that the first dirty one; failing that a single
    [invalid_union] issue. *)
Definition is_valid (r : ParseReturn) : bool :=
  match fst r with valid => true | _ => false end.

Definition is_dirty (r : ParseReturn) : bool :=
  match fst r with dirty => true | _ => false end.

Definition union_result (p : list string) (results : list ParseReturn)
    : ParseReturn :=
  match find is_valid results with
  | Some r => r
  | None =>
      match find is_dirty results with
      | Some r => r
      | None => INVALID [mkIssue invalid_union p "Invalid input"]
      end
  end.

Fixpoint _parse (schema : ZodType) (p : list string) (data : jsval)
    {struct schema} : ParseReturn :=
  match schema with
  | ZodString checks =>
      match data with
      | JString s => checked (flat_map (run_string_check p s) checks)
      | _ => INVALID [invalid_type_issue p "string" data]
      end
  | ZodNumber checks =>
      match data with
      | JNumber x => checked (flat_map (run_number_check p x) checks)
      | _ => INVALID [invalid_type_issue p "number" data]
      end
  | ZodBoolean =>
      match data with
      | JBoolean _ => OK
      | _ => INVALID [invalid_type_issue p "boolean" data]
      end
  | ZodDate =>
      match data with
      | JDate (Some _) => OK
      | JDate None => INVALID [mkIssue invalid_date p "Invalid date"]
      | _ => INVALID [invalid_type_issue p "date" data]
      end
  | ZodLiteral value =>
      match data with
      | JString s =>
          if jsstring_eqb s (js value) then OK
          else INVALID [mkIssue invalid_literal p
                          ("Invalid literal value, expected "
                             ++ quote ++ value ++ quote)%string]
      | _ => INVALID [mkIssue invalid_literal p
                        ("Invalid literal value, expected "
                           ++ quote ++ value ++ quote)%string]
      end
  | ZodUnion options =>
      union_result p (map (fun o => _parse o p data) options)
  | ZodOptional inner =>
      match data with
      | JUndefined => OK
      | _ => _parse inner p data
      end
  | ZodNullable inner =>
      match data with
      | JNull => OK
      | _ => _parse inner p data
      end
  end.

Definition merge_status (a b : ParseStatus) : ParseStatus :=
  match a, b with
  | aborted, _ | _, aborted => aborted
  | dirty, _ | _, dirty => dirty
  | valid, valid => valid
  end.

(** An object schema parses every key of its shape, in order, against
    [data[key]]; keys outside the shape are stripped. *)
Fixpoint parse_shape (fields : list (string * ZodType))
    (props : list (jsstring * jsval)) : ParseReturn :=
  match fields with
  | [] => OK
  | (key, schema) :: rest =>
      let r := _parse schema [key] (get_prop (js key) props) in
      let rs := parse_shape rest props in
      (merge_status (fst r) (fst rs), snd r ++ snd rs)
  end.

Definition parse_object (schema : ZodObject) (data : jsval) : ParseReturn :=
  match data with
  | JObject props => parse_shape (shape schema) props
  | _ => INVALID [invalid_type_issue [] "object" data]
  end.

(** The parsed value of an object: the keys of the shape that the input
    has or whose value is not [undefined]. *)
Definition strip (fields : list (string * ZodType))
    (props : list (jsstring * jsval)) : list (jsstring * jsval) :=
  flat_map (fun kv : string * ZodType =>
              let k := js (fst kv) in
              match get_prop k props with
              | JUndefined => if has_prop k props then [(k, JUndefined)] else []
              | v => [(k, v)]
              end) fields.

Definition output (schema : ZodObject) (data : jsval) : jsval :=
  match data with
  | JObject props => JObject (strip (shape schema) props)
  | other => other
  end.

Inductive SafeParseReturn : Type :=
| SafeParseSuccess (data : jsval)
| SafeParseError (issues : list ZodIssue).

(** [handleResult]: a valid parse is a success; an invalid one is a
    failure carrying the issues, and the library throws when an invalid
    parse has recorded none. *)
Definition handleResult (r : ParseReturn) (data : jsval)
    : completion SafeParseReturn :=
  match fst r with
  | valid => Normal (SafeParseSuccess data)
  | _ =>
      match snd r with
      | [] => Throw (ErrorObject "Error" "Validation failed but no issues detected.")
      | issues => Normal (SafeParseError issues)
      end
  end.

Definition safeParse (schema : ZodObject) (data : jsval)
    : completion SafeParseReturn :=
  handleResult (parse_object schema data) (output schema data).

(** [error.flatten().fieldErrors]: the messages of the issues, keyed by
    the first segment of their path; issues at the root are form errors,
    not field errors. *)
Definition add_field_error (i : ZodIssue) (m : gmap string (list string))
    : gmap string (list string) :=
  match path i with
  | [] => m
  | field :: _ => <[field := message i :: default [] (m !! field)]> m
  end.

Definition fieldErrors (issues : list ZodIssue) : gmap string (list string) :=
  foldr add_field_error ∅ issues.

Definition formErrors (issues : list ZodIssue) : list string :=
  flat_map (fun i => match path i with [] => [message i] | _ => [] end) issues.

(** The issues recorded for one field, and their messages. *)
Definition issues_at (field : string) (issues : list ZodIssue) : list ZodIssue :=
  List.filter (fun i => bool_decide (path i = [field])) issues.

Definition messages_at (field : string) (issues : list ZodIssue) : list string :=
  map message (issues_at field issues).

(** The issues a validator records for a candidate input. *)
Definition issues_of (schema : ZodObject) (data : jsval) : list ZodIssue :=
  snd (parse_object schema data).

End Zod.


(* ===================================================================== *)
(** * Table definitions ([db/schema.ts]) *)
(* ===================================================================== *)

Module Schema.

Inductive ColumnType : Type :=
| PgSerial
| PgInteger
| PgVarchar (length : option nat)
| PgText
| PgBoolean
| PgTimestamp.

Inductive ColumnDefault : Type :=
| DefaultValue (v : jsval)
| DefaultNow
| DefaultSequence.

Record Column : Type := mkColumn {
  columnName : string;
  columnType : ColumnType;
  notNull : bool;
  hasDefault : option ColumnDefault;
  primary : bool;
  isUnique : bool;
  references : option (string * string);
  onUpdate : bool
}.

Definition column (name : string) (ty : ColumnType) : Column :=
  mkColumn name ty false None false false None false.

(** Column builders.  A serial column is not null and has a default. *)
Definition serial (name : string) : Column :=
  mkColumn name PgSerial true (Some DefaultSequence) false false None false.
Definition integer (name : string) : Column := column name PgInteger.
Definition varchar (name : string) (length : option nat) : Column :=
  column name (PgVarchar length).
Definition text (name : string) : Column := column name PgText.
Definition boolean (name : string) : Column := column name PgBoolean.
Definition timestamp (name : string) : Column := column name PgTimestamp.

Definition set_notNull (c : Column) : Column :=
  mkColumn (columnName c) (columnType c) true (hasDefault c) (primary c)
    (isUnique c) (references c) (onUpdate c).
Definition primaryKey (c : Column) : Column :=
  mkColumn (columnName c) (columnType c) true (hasDefault c) true
    (isUnique c) (references c) (onUpdate c).
Definition unique (c : Column) : Column :=
  mkColumn (columnName c) (columnType c) (notNull c) (hasDefault c) (primary c)
    true (references c) (onUpdate c).
Definition default_ (v : jsval) (c : Column) : Column :=
  mkColumn (columnName c) (columnType c) (notNull c) (Some (DefaultValue v))
    (primary c) (isUnique c) (references c) (onUpdate c).
Definition defaultNow (c : Column) : Column :=
  mkColumn (columnName c) (columnType c) (notNull c) (Some DefaultNow)
    (primary c) (isUnique c) (references c) (onUpdate c).
Definition references_ (table col : string) (c : Column) : Column :=
  mkColumn (columnName c) (columnType c) (notNull c) (hasDefault c) (primary c)
    (isUnique c) (Some (table, col)) (onUpdate c).
Definition on_update (c : Column) : Column :=
  mkColumn (columnName c) (columnType c) (notNull c) (hasDefault c) (primary c)
    (isUnique c) (references c) true.

Record Table : Type := pgTable {
  tableName : string;
  columns : list (string * Column)
}.

(** Method chains read left to right. *)
Notation "c |> f" := (f c) (at level 45, left associativity, only parsing).

Definition customers : Table := pgTable "customers" [
  ("id", serial "id" |> primaryKey);
  ("firstName", varchar "first_name" None |> set_notNull);
  ("lastName", varchar "last_name" None |> set_notNull);
  ("email", varchar "email" None |> unique |> set_notNull);
  ("phone", varchar "phone" None |> set_notNull);
  ("address1", varchar "address1" None |> set_notNull);
  ("address2", varchar "address2" None);
  ("city", varchar "city" None |> set_notNull);
  ("state", varchar "state" (Some 2%nat) |> set_notNull);
  ("zipCode", varchar "zip_code" (Some 10%nat) |> set_notNull);
  ("notes", text "notes");
  ("active", boolean "active" |> set_notNull |> default_ (JBoolean true));
  ("createdAt", timestamp "created_at" |> set_notNull |> defaultNow);
  ("updatedAt", timestamp "updated_at" |> set_notNull |> defaultNow |> on_update)
]%string.

Definition tickets : Table := pgTable "tickets" [
  ("id", serial "id" |> primaryKey);
  ("customerId", integer "customer_id" |> set_notNull
                   |> references_ "customers" "id");
  ("title", varchar "title" None |> set_notNull);
  ("description", text "description");
  ("completed", boolean "completed" |> set_notNull |> default_ (JBoolean false));
  ("tech", varchar "tech" None |> set_notNull
             |> default_ (JString (js "unassigned")));
  ("createdAt", timestamp "created_at" |> set_notNull |> defaultNow);
  ("updatedAt", timestamp "updated_at" |> set_notNull |> defaultNow |> on_update)
]%string.

End Schema.

(* ===================================================================== *)
(** * Deriving validators from tables *)
(* ===================================================================== *)

(** Library model: the schema-derivation library (its source is
    not part of the repository).  Each column gives a base validator from
    its type; the refinement for the column's key, if any, either extends
    the base validator (a callback) or replaces the column's validator
    outright (a schema); on insert a column that may be null is nullable,
    and one that may be null or has a default is optional. *)
Module DrizzleZod.
Import Zod Schema.

Definition INT32_MIN : Z := -2147483648.
Definition INT32_MAX : Z := 2147483647.

Definition columnToSchema (c : Column) : ZodType :=
  match columnType c with
  | PgSerial | PgInteger =>
      ZodNumber [nk_min INT32_MIN; nk_max INT32_MAX; nk_int]
  | PgVarchar (Some n) => max_default n z_string
  | PgVarchar None => z_string
  | PgText => z_string
  | PgBoolean => z_boolean
  | PgTimestamp => z_date
  end.

Inductive Refinement : Type :=
| Replace (schema : ZodType)
| Refine (callback : ZodType -> ZodType).

Fixpoint lookup_refinement (key : string) (refine : list (string * Refinement))
    : option Refinement :=
  match refine with
  | [] => None
  | (k, r) :: rest =>
      if String.eqb k key then Some r else lookup_refinement key rest
  end.

Definition insert_nullable (c : Column) : bool := negb (notNull c).
Definition insert_optional (c : Column) : bool :=
  negb (notNull c) || (notNull c && bool_decide (hasDefault c <> None)).

Definition insert_column (refine : list (string * Refinement))
    (kc : string * Column) : string * ZodType :=
  let (key, c) := kc in
  match lookup_refinement key refine with
  | Some (Replace schema) => (key, schema)
  | r =>
      let base := columnToSchema c in
      let refined := match r with
                     | Some (Refine callback) => callback base
                     | _ => base
                     end in
      let s1 := if insert_nullable c then nullable refined else refined in
      let s2 := if insert_optional c then optional s1 else s1 in
      (key, s2)
  end.

Definition createInsertSchema (table : Table)
    (refine : list (string * Refinement)) : ZodObject :=
  mkObject (map (insert_column refine) (columns table)).

(** A row read back: every column present, nullable where the column is. *)
Definition createSelectSchema (table : Table) : ZodObject :=
  mkObject (map (fun kc : string * Column =>
                   let base := columnToSchema (snd kc) in
                   (fst kc, if notNull (snd kc) then base else nullable base))
              (columns table)).

End DrizzleZod.

(* ===================================================================== *)
(** * The application's validators ([zod-schema/]) *)
(* ===================================================================== *)

Module Validators.
Import Zod Schema DrizzleZod Patterns.

Definition zipCode_message : string :=
  "Invalid zip code. Use 5 digits or 5 digits followed by a hyphen and 4 digits".
Definition phone_message : string :=
  "Invalid phone number. Use format: 123-456-7890".

(** [zod-schema/customer.ts] *)
Definition insertCustomerSchema : ZodObject :=
  createInsertSchema customers [
    ("firstName", Refine (fun schema => schema |> min_ 1 "First name is required"));
    ("lastName", Refine (fun schema => schema |> min_ 1 "Last name is required"));
    ("address1", Refine (fun schema => schema |> min_ 1 "Address is required"));
    ("city", Refine (fun schema => schema |> min_ 1 "City is required"));
    ("state", Refine (fun schema => schema |> length_ 2 "State must be 2 characters"));
    ("email", Refine (fun schema => schema |> email_ "Invalid email address"));
    ("zipCode", Refine (fun schema => schema |> regex_ zipCodePattern zipCode_message));
    ("phone", Refine (fun schema => schema |> regex_ phonePattern phone_message))
  ]%string.

Definition selectCustomerSchema : ZodObject := createSelectSchema customers.

(** [zod-schema/ticket.ts] *)
Definition insertTicketSchema : ZodObject :=
  createInsertSchema tickets [
    ("id", Replace (z_union [z_number; z_literal "(New)"]));
    ("title", Refine (fun schema => schema |> min_ 1 "Title is required"));
    ("description", Refine (fun schema => schema |> min_ 1 "Description is required"));
    ("tech", Refine (fun schema => schema |> min_ 1 "Tech is required"))
  ]%string.

Definition selectTicketSchema : ZodObject := createSelectSchema tickets.

End Validators.


(* ===================================================================== *)
(** * Facts about parsing *)
(* ===================================================================== *)

Module ZodFacts.
Import Zod.

(** Induction over schemas that reaches the options of a union. *)
Section ZodType_nested_induction.
Variable P : ZodType -> Prop.
Hypothesis H_string : forall checks, P (ZodString checks).
Hypothesis H_number : forall checks, P (ZodNumber checks).
Hypothesis H_boolean : P ZodBoolean.
Hypothesis H_date : P ZodDate.
Hypothesis H_literal : forall value, P (ZodLiteral value).
Hypothesis H_union : forall options, List.Forall P options -> P (ZodUnion options).
Hypothesis H_optional : forall inner, P inner -> P (ZodOptional inner).
Hypothesis H_nullable : forall inner, P inner -> P (ZodNullable inner).

Fixpoint ZodType_nested_ind (t : ZodType) : P t :=
  match t with
  | ZodString checks => H_string checks
  | ZodNumber checks => H_number checks
  | ZodBoolean => H_boolean
  | ZodDate => H_date
  | ZodLiteral value => H_literal value
  | ZodUnion options =>
      H_union options
        ((fix go (l : list ZodType) : List.Forall P l :=
            match l with
            | [] => @List.Forall_nil _ P
            | x :: xs => @List.Forall_cons _ P x xs (ZodType_nested_ind x) (go xs)
            end) options)
  | ZodOptional inner => H_optional inner (ZodType_nested_ind inner)
  | ZodNullable inner => H_nullable inner (ZodType_nested_ind inner)
  end.
End ZodType_nested_induction.

(** A parse is valid exactly when it added no issue. *)
Definition coherent (r : ParseReturn) : Prop :=
  fst r = valid <-> snd r = [].

Lemma coherent_OK : coherent OK.
Proof. unfold coherent, OK. simpl. tauto. Qed.

Lemma coherent_INVALID i : coherent (INVALID [i]).
Proof. unfold coherent, INVALID. simpl. split; discriminate. Qed.

Lemma coherent_checked issues : coherent (checked issues).
Proof.
  unfold coherent, checked. destruct issues; simpl; [tauto|].
  split; discriminate.
Qed.

Lemma snd_checked issues : snd (checked issues) = issues.
Proof. destruct issues; reflexivity. Qed.

Lemma union_result_from p results :
  In (union_result p results) results \/
  union_result p results = INVALID [mkIssue invalid_union p "Invalid input"].
Proof.
  unfold union_result.
  destruct (find is_valid results) as [r|] eqn:Hv.
  - left. apply find_some in Hv. tauto.
  - destruct (find is_dirty results) as [r|] eqn:Hd.
    + left. apply find_some in Hd. tauto.
    + right. reflexivity.
Qed.

Lemma coherent_union p results :
  List.Forall coherent results -> coherent (union_result p results).
Proof.
  intros Hall. destruct (union_result_from p results) as [Hin | ->].
  - rewrite List.Forall_forall in Hall. auto.
  - apply coherent_INVALID.
Qed.

Lemma parse_coherent schema : forall p data, coherent (_parse schema p data).
Proof.
  induction schema using ZodType_nested_ind; intros p data; simpl.
  - destruct data; auto using coherent_INVALID, coherent_checked.
  - destruct data; auto using coherent_INVALID, coherent_checked.
  - destruct data; auto using coherent_INVALID, coherent_OK.
  - destruct data as [| | | | | | |[t|]| | |];
      auto using coherent_INVALID, coherent_OK.
  - destruct data; auto using coherent_INVALID.
    destruct (jsstring_eqb s (js value)); auto using coherent_INVALID, coherent_OK.
  - apply coherent_union. apply List.Forall_forall. intros r Hr.
    apply in_map_iff in Hr as (o & <- & Ho).
    rewrite List.Forall_forall in H. auto.
  - destruct data; auto using coherent_OK.
  - destruct data; auto using coherent_OK.
Qed.

Lemma merge_status_valid a b :
  merge_status a b = valid <-> a = valid /\ b = valid.
Proof. destruct a, b; simpl; split; intros; intuition congruence. Qed.

Lemma parse_shape_coherent fields props : coherent (parse_shape fields props).
Proof.
  induction fields as [|[key schema] rest IH]; simpl.
  - apply coherent_OK.
  - pose proof (parse_coherent schema [key] (get_prop (js key) props)) as Hs.
    unfold coherent in *. simpl. rewrite merge_status_valid. split.
    + intros [H1 H2]. apply Hs in H1. apply IH in H2.
      rewrite H1, H2. reflexivity.
    + intros H. apply app_eq_nil in H as [H1 H2].
      split; [apply Hs | apply IH]; assumption.
Qed.

Lemma parse_object_coherent schema data : coherent (parse_object schema data).
Proof.
  unfold parse_object.
  destruct data; auto using coherent_INVALID, parse_shape_coherent.
Qed.

(** [safeParse] returns: a success when no issue was added, a failure with
    the issues otherwise. *)
Lemma safeParse_cases schema data :
  (snd (parse_object schema data) = [] /\
   safeParse schema data = Normal (SafeParseSuccess (output schema data)))
  \/
  (snd (parse_object schema data) <> [] /\
   safeParse schema data = Normal (SafeParseError (snd (parse_object schema data)))).
Proof.
  unfold safeParse, handleResult.
  pose proof (parse_object_coherent schema data) as Hc. unfold coherent in Hc.
  destruct (parse_object schema data) as [st issues]. simpl in *.
  destruct st.
  - left. split; [apply Hc|]; reflexivity.
  - right. destruct issues; [|split; [discriminate | reflexivity]].
    destruct Hc as [_ Hc]. discriminate (Hc eq_refl).
  - right. destruct issues; [|split; [discriminate | reflexivity]].
    destruct Hc as [_ Hc]. discriminate (Hc eq_refl).
Qed.

(** Every issue of a parse is at the path the parse was given. *)
Lemma run_string_check_path p s ck i :
  In i (run_string_check p s ck) -> path i = p.
Proof.
  destruct ck; simpl;
    repeat match goal with |- context [if ?b then _ else _] => destruct b end;
    simpl; intros H; intuition (subst; reflexivity).
Qed.

Lemma run_number_check_path p x ck i :
  In i (run_number_check p x ck) -> path i = p.
Proof.
  destruct ck; simpl;
    repeat match goal with |- context [if ?b then _ else _] => destruct b end;
    simpl; intros H; intuition (subst; reflexivity).
Qed.

Lemma invalid_type_issue_path p expected data :
  path (invalid_type_issue p expected data) = p.
Proof. reflexivity. Qed.

Ltac one_issue :=
  simpl; intros [<- | []]; reflexivity.

Lemma parse_path schema : forall p data i,
  In i (snd (_parse schema p data)) -> path i = p.
Proof.
  induction schema using ZodType_nested_ind; intros p data i; simpl.
  - destruct data; try one_issue.
    rewrite snd_checked, in_flat_map. intros (ck & _ & Hi).
    eauto using run_string_check_path.
  - destruct data; try one_issue.
    rewrite snd_checked, in_flat_map. intros (ck & _ & Hi).
    eauto using run_number_check_path.
  - destruct data; try one_issue. simpl. tauto.
  - destruct data as [| | | | | | |[t|]| | |]; try one_issue. simpl. tauto.
  - destruct data; try one_issue.
    destruct (jsstring_eqb s (js value)); try one_issue. simpl. tauto.
  - destruct (union_result_from p (map (fun o => _parse o p data) options))
      as [Hin | ->]; [|one_issue].
    apply in_map_iff in Hin as (o & Ho & Hin). rewrite <- Ho.
    rewrite List.Forall_forall in H. eauto.
  - destruct data; try apply IHschema; simpl; tauto.
  - destruct data; try apply IHschema; simpl; tauto.
Qed.

End ZodFacts.


(* ===================================================================== *)
(** * Records of the application *)
(* ===================================================================== *)

(** A value that may be missing: [undefined], [null], or present. *)
Inductive maybe (A : Type) : Type :=
| Undefined
| Null
| Value (a : A).
Arguments Undefined {A}.
Arguments Null {A}.
Arguments Value {A} a.

(** [o?.f]: [undefined] when [o] is [undefined] or [null]. *)
Definition optional_chain {A B : Type} (o : maybe A) (f : A -> maybe B) : maybe B :=
  match o with
  | Value a => f a
  | _ => Undefined
  end.

(** [v ?? d]: [d] when [v] is [undefined] or [null]. *)
Definition nullish_coalescing {A : Type} (v : maybe A) (d : A) : A :=
  match v with
  | Value a => a
  | _ => d
  end.

Notation "o ?. f" := (optional_chain o f) (at level 40, left associativity).
Notation "v ?? d" := (nullish_coalescing v d) (at level 45, left associativity).

(** The row type of a customer ([selectCustomerSchemaType]); [number] is
    the type of JavaScript numbers. *)
Module Customer.
Record t (number : Type) : Type := mk {
  id : number;
  firstName : jsstring;
  lastName : jsstring;
  email : jsstring;
  phone : jsstring;
  address1 : jsstring;
  address2 : option jsstring;
  city : jsstring;
  state : jsstring;
  zipCode : jsstring;
  notes : option jsstring;
  active : bool;
  createdAt : Z;
  updatedAt : Z
}.
Arguments mk {number}.
Arguments id {number}.
End Customer.

(* ===================================================================== *)
(** * The ticket form ([app/(rs)/tickets/form/TicketForm.tsx]) *)
(* ===================================================================== *)

Module TicketForm.

(** [number | "(New)"] *)
Inductive TicketId (number : Type) : Type :=
| IdNumber (n : number)
| IdNew.
Arguments IdNumber {number} n.
Arguments IdNew {number}.

(** The sentinel of a ticket that is not created yet. *)
Definition New_literal : string := "(New)".

Definition TicketId_to_jsval (i : TicketId Q) : jsval :=
  match i with
  | IdNumber n => JNumber n
  | IdNew => JString (js New_literal)
  end.

(** [InsertTicket], the record the form may be opened on; any field may
    be missing at run time. *)
Record InsertTicket (number : Type) : Type := mkTicket {
  id : maybe (TicketId number);
  customerId : maybe number;
  title : maybe jsstring;
  description : maybe jsstring;
  completed : maybe bool;
  tech : maybe jsstring;
  createdAt : maybe Z;
  updatedAt : maybe Z
}.
Arguments mkTicket {number}.
Arguments id {number}.
Arguments customerId {number}.
Arguments title {number}.
Arguments description {number}.
Arguments completed {number}.
Arguments tech {number}.

(** The value set the form starts from. *)
Record DefaultValues (number : Type) : Type := mkDefaults {
  d_id : TicketId number;
  d_customerId : number;
  d_title : jsstring;
  d_description : jsstring;
  d_completed : bool;
  d_tech : jsstring
}.
Arguments mkDefaults {number}.
Arguments d_id {number}.
Arguments d_customerId {number}.
Arguments d_title {number}.
Arguments d_description {number}.
Arguments d_completed {number}.
Arguments d_tech {number}.

Definition placeholder_tech : jsstring := js "new-ticket@example.com".

Definition defaultValues {number : Type}
    (customer : Customer.t number) (ticket : maybe (InsertTicket number))
    : DefaultValues number :=
  {| d_id := ticket ?. id ?? IdNew;
     d_customerId := ticket ?. customerId ?? Customer.id customer;
     d_title := ticket ?. title ?? js "";
     d_description := ticket ?. description ?? js "";
     d_completed := ticket ?. completed ?? false;
     d_tech := ticket ?. tech ?? placeholder_tech |}.

(** The field of the record the form was opened on, [undefined] when the
    form was opened on none. *)
Definition field {number A : Type} (ticket : maybe (InsertTicket number))
    (f : InsertTicket number -> maybe A) : maybe A :=
  ticket ?. f.

End TicketForm.


(* ===================================================================== *)
(** * The customer form page ([app/(rs)/customers/form/page.tsx]) *)
(* ===================================================================== *)

Module CustomerFormPage.

(** Navigation parameters: [{ [key: string]: string | undefined }]. *)
Abbreviation Params := (gmap jsstring jsstring).

Section Page.

(** JavaScript numbers and the built-in [parseInt]. *)
Variable number : Type.
Variable parseInt : jsstring -> number.

(** [lib/queries/getCustomer]: the by-id fetch of the record store.  It
    returns the record or [undefined], or raises. *)
Variable getCustomer : number -> completion (option (Customer.t number)).

Inductive Payload : Type :=
| P_params (params : Params)
| P_customerId (customerId : option jsstring)
| P_customer (customer : option (Customer.t number))
| P_thrown (e : thrown)
| P_none.

Inductive Level : Type := log | error.

Record LogEntry : Type := mkEntry {
  level : Level;
  label : string;
  payload : Payload
}.

(** What the page can touch: the console, the error-reporting sink, and
    the record store, of which the queries made are recorded. *)
Record World : Type := mkWorld {
  console : list LogEntry;
  sentry : list thrown;
  queries : list number
}.

Definition M (A : Type) : Type := World -> World * completion A.

Definition ret {A : Type} (a : A) : M A := fun w => (w, Normal a).

Definition bind {A B : Type} (m : M A) (k : A -> M B) : M B :=
  fun w =>
    match m w with
    | (w', Normal a) => k a w'
    | (w', Throw e) => (w', Throw e)
    end.

Definition throw {A : Type} (e : thrown) : M A := fun w => (w, Throw e).

Definition try_catch {A : Type} (body : M A) (handler : thrown -> M A) : M A :=
  fun w =>
    match body w with
    | (w', Normal a) => (w', Normal a)
    | (w', Throw e) => handler e w'
    end.

(** [await p]: the value a promise resolves to, or the raise of what it
    rejects with. *)
Definition await {A : Type} (p : completion A) : M A := fun w => (w, p).

Definition console_log (label : string) (payload : Payload) : M unit :=
  fun w => (mkWorld (console w ++ [mkEntry log label payload]) (sentry w)
              (queries w), Normal tt).

Definition console_error (label : string) (payload : Payload) : M unit :=
  fun w => (mkWorld (console w ++ [mkEntry error label payload]) (sentry w)
              (queries w), Normal tt).

(** [Sentry.captureException] *)
Definition captureException (e : thrown) : M unit :=
  fun w => (mkWorld (console w) (sentry w ++ [e]) (queries w), Normal tt).

(** [await getCustomer(id)] *)
Definition fetch (id : number) : M (option (Customer.t number)) :=
  fun w => (mkWorld (console w) (sentry w) (queries w ++ [id]), getCustomer id).

Notation "x <- m ;; k" := (bind m (fun x => k))
  (at level 100, m at next level, k at level 200, right associativity).
Notation "m ;; k" := (bind m (fun _ => k))
  (at level 100, k at level 200, right associativity).

Record BackButtonProps : Type := mkBackButton {
  bb_title : string;
  bb_variant : string;
  bb_className : string
}.

(** What the page renders. *)
Inductive Element : Type :=
| NotFound (customerId : jsstring) (back : BackButtonProps)
| CustomerForm (customer : option (Customer.t number)).

(** The page.  [if (customerId)] takes the edit branch for a non-empty
    string; [undefined] and the empty string are falsy.  A function that
    ends without [return] yields [undefined], here [None]. *)
Definition CustomerFormPage (searchParams : completion Params)
    : M (option Element) :=
  try_catch
    (params <- await searchParams ;;
     console_log "=== DEBUG: All searchParams:" (P_params params) ;;
     let customerId := params !! js "customerId" in
     console_log "=== DEBUG: customerId extracted:" (P_customerId customerId) ;;
     match customerId with
     | Some ((_ :: _) as customerId') =>
         console_log "=== DEBUG: Fetching customer with ID:"
           (P_customerId customerId) ;;
         customer <- fetch (parseInt customerId') ;;
         console_log "=== DEBUG: Customer data:" (P_customer customer) ;;
         match customer with
         | None =>
             ret (Some (NotFound customerId'
                          (mkBackButton "Go Back" "default" "ml-4")))
         | Some c =>
             console_log "=== DEBUG: Rendering edit form for customer:"
               (P_customer customer) ;;
             ret (Some (CustomerForm (Some c)))
         end
     | _ =>
         console_log "=== DEBUG: No customerId, rendering new customer form"
           P_none ;;
         ret (Some (CustomerForm None))
     end)
    (fun e =>
       console_error "=== DEBUG: Error caught:" (P_thrown e) ;;
       if instanceof_Error e
       then captureException e ;; throw e
       else ret None).

Definition initial : World := mkWorld [] [] [].

(** The result of a render, and what reached the error-reporting sink. *)
Definition render (searchParams : completion Params) : completion (option Element) :=
  snd (CustomerFormPage searchParams initial).

Definition captured (searchParams : completion Params) : list thrown :=
  sentry (fst (CustomerFormPage searchParams initial)).

(** The queries a render made to the record store. *)
Definition fetched (searchParams : completion Params) : list number :=
  queries (fst (CustomerFormPage searchParams initial)).

End Page.

Arguments NotFound {number}.
Arguments CustomerForm {number}.
Arguments render {number}.
Arguments captured {number}.
Arguments fetched {number}.

End CustomerFormPage.


(* ===================================================================== *)
(** * The migration runner ([db/migrate.ts]) *)
(* ===================================================================== *)

Module Migrate.

(** How a step of the script ends: it returns, it raises, or the process
    is terminated with an exit code. *)
Inductive outcome (A : Type) : Type :=
| Returned (a : A)
| Raised (e : thrown)
| Exited (code : Z).
Arguments Returned {A} a.
Arguments Raised {A} e.
Arguments Exited {A} code.

Inductive Line : Type :=
| Out (text : string)
| Err (text : string) (e : thrown).

(** The process: what it wrote to the console, and [process.exitCode]. *)
Record Process : Type := mkProcess {
  console : list Line;
  exitCode : option Z
}.

Definition M (A : Type) : Type := Process -> Process * outcome A.

Definition ret {A : Type} (a : A) : M A := fun w => (w, Returned a).

Definition bind {A B : Type} (m : M A) (k : A -> M B) : M B :=
  fun w =>
    match m w with
    | (w', Returned a) => k a w'
    | (w', Raised e) => (w', Raised e)
    | (w', Exited code) => (w', Exited code)
    end.

(** [catch] takes what was raised, whatever it is; a terminated process runs
    no handler. *)
Definition try_catch {A : Type} (body : M A) (handler : thrown -> M A) : M A :=
  fun w =>
    match body w with
    | (w', Raised e) => handler e w'
    | other => other
    end.

Definition console_log (text : string) : M unit :=
  fun w => (mkProcess (console w ++ [Out text]) (exitCode w), Returned tt).

Definition console_error (text : string) (e : thrown) : M unit :=
  fun w => (mkProcess (console w ++ [Err text e]) (exitCode w), Returned tt).

(** [process.exit(code)] *)
Definition process_exit {A : Type} (code : Z) : M A :=
  fun w => (mkProcess (console w) (Some code), Exited code).

Definition migrationsFolder : string :=
  "/home/usiel667/DEV/Next js/full_stack_01/repairshop/db/migrations".

Section Runner.

(** The migrator of the ORM, applied to the database handle: it takes
    the migrations folder. *)
Variable migrate : string -> M unit.

Notation "m ;; k" := (bind m (fun _ => k))
  (at level 100, k at level 200, right associativity).

Definition main : M unit :=
  try_catch
    (migrate migrationsFolder ;;
     console_log "Migrations applied successfully.")
    (fun error =>
       console_error "Error applying migrations:" error ;;
       process_exit 1).

End Runner.

End Migrate.


(* ===================================================================== *)
(** * Facts about object validators *)
(* ===================================================================== *)

Module ObjectFacts.
Import Zod ZodFacts.

Lemma parse_shape_paths fields props i :
  In i (snd (parse_shape fields props)) ->
  exists key, In key (map fst fields) /\ path i = [key].
Proof.
  induction fields as [|[key schema] rest IH]; simpl; [tauto|].
  rewrite in_app_iff. intros [H | H].
  - exists key. split; [left; reflexivity | eapply parse_path; eauto].
  - destruct (IH H) as (k & Hk & Hp). exists k. auto.
Qed.

Lemma issues_at_all key issues :
  (forall i, In i issues -> path i = [key]) -> issues_at key issues = issues.
Proof.
  unfold issues_at. induction issues as [|i rest IH]; simpl; intros H; [reflexivity|].
  rewrite bool_decide_eq_true_2 by auto. f_equal. auto.
Qed.

Lemma issues_at_none key issues :
  (forall i, In i issues -> path i <> [key]) -> issues_at key issues = [].
Proof.
  unfold issues_at. induction issues as [|i rest IH]; simpl; intros H; [reflexivity|].
  rewrite bool_decide_eq_false_2 by auto. auto.
Qed.

Lemma issues_at_app key a b :
  issues_at key (a ++ b) = issues_at key a ++ issues_at key b.
Proof. unfold issues_at. apply List.filter_app. Qed.

(** In an object whose keys are distinct, the issues recorded for a field
    are those of parsing that field's value against that field's schema. *)
Lemma issues_at_parse_shape fields props key schema :
  List.NoDup (map fst fields) ->
  In (key, schema) fields ->
  issues_at key (snd (parse_shape fields props))
  = snd (_parse schema [key] (get_prop (js key) props)).
Proof.
  induction fields as [|[k s] rest IH]; simpl; intros Hnd Hin; [tauto|].
  inversion Hnd as [|? ? Hk Hrest]; subst.
  rewrite issues_at_app. destruct Hin as [Heq | Hin].
  - injection Heq as Hk' Hs'. subst k s.
    rewrite issues_at_all by (intros i; apply parse_path).
    rewrite issues_at_none; [apply app_nil_r|].
    intros i Hi Hp. apply parse_shape_paths in Hi as (k' & Hk' & Hp').
    rewrite Hp in Hp'. injection Hp' as ->. auto.
  - rewrite issues_at_none; [simpl; auto|].
    intros i Hi Hp. apply parse_path in Hi. rewrite Hp in Hi.
    injection Hi as <-. apply Hk.
    apply in_map_iff. exists (key, schema). auto.
Qed.

Lemma issues_at_object schema props key field_schema :
  List.NoDup (map fst (shape schema)) ->
  In (key, field_schema) (shape schema) ->
  issues_at key (issues_of schema (JObject props))
  = snd (_parse field_schema [key] (get_prop (js key) props)).
Proof. intros. unfold issues_of. simpl. apply issues_at_parse_shape; auto. Qed.

Lemma issues_at_In key issues i :
  In i (issues_at key issues) -> In i issues.
Proof. unfold issues_at. rewrite List.filter_In. tauto. Qed.

(** A failing field makes the whole validation fail, with the issues of
    the parse. *)
Lemma safeParse_fails schema data key :
  issues_at key (issues_of schema data) <> [] ->
  safeParse schema data = Normal (SafeParseError (issues_of schema data)).
Proof.
  intros Hne. destruct (safeParse_cases schema data) as [[Hnil _] | [_ Hs]].
  - unfold issues_of in Hne. rewrite Hnil in Hne. contradiction.
  - exact Hs.
Qed.

(** ** The field-keyed map *)

Definition field_issue (i : ZodIssue) : Prop := exists key, path i = [key].

Lemma fieldErrors_lookup issues key :
  List.Forall field_issue issues ->
  fieldErrors issues !! key
  = match messages_at key issues with
    | [] => None
    | msgs => Some msgs
    end.
Proof.
  unfold messages_at, issues_at.
  induction issues as [|i rest IH]; intros Hall; simpl.
  - apply lookup_empty.
  - inversion Hall as [|? ? [k Hk] Hrest]; subst.
    specialize (IH Hrest). unfold add_field_error. rewrite Hk.
    destruct (decide (k = key)) as [->|Hne].
    + rewrite lookup_insert_eq.
      rewrite bool_decide_eq_true_2 by reflexivity. simpl.
      fold (fieldErrors rest). rewrite IH.
      destruct (map message _); reflexivity.
    + rewrite lookup_insert_ne by assumption.
      rewrite bool_decide_eq_false_2 by congruence.
      exact IH.
Qed.

(** ** Wording *)

(** A schema is well worded when none of its custom messages is empty. *)
Definition worded (msg : option string) : bool :=
  match msg with
  | Some m => negb (String.eqb m "")
  | None => true
  end.

Definition check_worded (ck : StringCheck) : bool :=
  match ck with
  | ck_min _ msg | ck_max _ msg | ck_length _ msg
  | ck_email msg | ck_regex _ msg => worded msg
  end.

Fixpoint well_worded (t : ZodType) : bool :=
  match t with
  | ZodString checks => forallb check_worded checks
  | ZodUnion options => forallb well_worded options
  | ZodOptional inner | ZodNullable inner => well_worded inner
  | _ => true
  end.

Lemma append_nonempty (a b : string) : a <> ""%string -> (a ++ b)%string <> ""%string.
Proof. destruct a; simpl; [congruence | discriminate]. Qed.

Lemma message_or_nonempty msg default :
  worded msg = true -> default <> ""%string -> message_or msg default <> ""%string.
Proof.
  destruct msg as [m|]; simpl; auto.
  intros H _ ->. discriminate.
Qed.

Ltac the_issue H :=
  simpl in H;
  first [ contradiction | destruct H as [<- | H]; [|contradiction] ].

Lemma run_string_check_worded p s ck i :
  check_worded ck = true -> In i (run_string_check p s ck) ->
  message i <> ""%string.
Proof.
  destruct ck; simpl; intros Hw;
    repeat match goal with |- context [if ?b then _ else _] => destruct b end;
    intros H; the_issue H; simpl;
    apply message_or_nonempty; auto; try discriminate;
    apply append_nonempty; discriminate.
Qed.

Lemma run_number_check_worded p x ck i :
  In i (run_number_check p x ck) -> message i <> ""%string.
Proof.
  destruct ck; simpl;
    repeat match goal with |- context [if ?b then _ else _] => destruct b end;
    intros H; the_issue H; simpl; try discriminate;
    apply append_nonempty; discriminate.
Qed.

Lemma invalid_type_issue_worded p expected data :
  message (invalid_type_issue p expected data) <> ""%string.
Proof.
  unfold invalid_type_issue. destruct data; simpl; discriminate.
Qed.

Ltac one_worded :=
  simpl; intros [<- | []];
  first [ apply invalid_type_issue_worded | simpl; discriminate ].

Lemma parse_worded schema : forall p data i,
  well_worded schema = true ->
  In i (snd (_parse schema p data)) -> message i <> ""%string.
Proof.
  induction schema using ZodType_nested_ind; intros p data i Hw; simpl.
  - destruct data; try one_worded.
    rewrite snd_checked, in_flat_map. intros (ck & Hck & Hi).
    simpl in Hw. rewrite forallb_forall in Hw.
    eauto using run_string_check_worded.
  - destruct data; try one_worded.
    rewrite snd_checked, in_flat_map. intros (ck & _ & Hi).
    eauto using run_number_check_worded.
  - destruct data; try one_worded. simpl. tauto.
  - destruct data as [| | | | | | |[t|]| | |]; try one_worded. simpl. tauto.
  - destruct data; try one_worded.
    destruct (jsstring_eqb s (js value)); try one_worded. simpl. tauto.
  - destruct (union_result_from p (map (fun o => _parse o p data) options))
      as [Hin | ->]; [|one_worded].
    apply in_map_iff in Hin as (o & Ho & Hin). rewrite <- Ho.
    simpl in Hw. rewrite forallb_forall in Hw.
    rewrite List.Forall_forall in H. eauto.
  - simpl in Hw. destruct data; try (apply IHschema; assumption); simpl; tauto.
  - simpl in Hw. destruct data; try (apply IHschema; assumption); simpl; tauto.
Qed.

Lemma parse_shape_worded fields props i :
  forallb (fun kv => well_worded (snd kv)) fields = true ->
  In i (snd (parse_shape fields props)) -> message i <> ""%string.
Proof.
  induction fields as [|[key schema] rest IH]; simpl; [tauto|].
  intros Hw. apply andb_prop in Hw as [Hs Hrest].
  rewrite in_app_iff. intros [H | H]; eauto using parse_worded.
Qed.

Lemma parse_object_worded schema data i :
  forallb (fun kv => well_worded (snd kv)) (shape schema) = true ->
  In i (snd (parse_object schema data)) -> message i <> ""%string.
Proof.
  intros Hw. destruct data; simpl; intros Hin;
    try (destruct Hin as [<- | []]; apply invalid_type_issue_worded).
  eapply parse_shape_worded; eauto.
Qed.

End ObjectFacts.


(* ===================================================================== *)
(** * The customer validator *)
(* ===================================================================== *)

Module CustomerValidation.
Import Zod ZodFacts ObjectFacts Validators Patterns.
Local Open Scope string_scope.

Lemma customer_keys_distinct :
  List.NoDup (map fst (shape insertCustomerSchema)).
Proof.
  change (map fst (shape insertCustomerSchema)) with
    ["id"; "firstName"; "lastName"; "email"; "phone"; "address1"; "address2";
     "city"; "state"; "zipCode"; "notes"; "active"; "createdAt"; "updatedAt"].
  repeat (constructor; [simpl; intuition discriminate|]). constructor.
Qed.

Lemma string_issues p s checks :
  snd (_parse (ZodString checks) p (JString s))
  = flat_map (run_string_check p s) checks.
Proof. simpl. apply snd_checked. Qed.

(** The email field is checked against the email pattern alone. *)
Lemma email_issues props s :
  get_prop (js "email") props = JString s ->
  issues_at "email" (issues_of insertCustomerSchema (JObject props))
  = if isEmail s then []
    else [mkIssue invalid_string ["email"] "Invalid email address"].
Proof.
  intros Hget.
  rewrite (issues_at_object _ _ "email"
             (ZodString [ck_email (Some "Invalid email address")]));
    [| apply customer_keys_distinct | vm_compute; tauto].
  rewrite Hget, string_issues. cbn [flat_map run_string_check message_or].
  destruct (isEmail s); reflexivity.
Qed.

(** The zip code field: at most ten code units (from the column), and the
    zip pattern. *)
Lemma zipCode_issues props z :
  get_prop (js "zipCode") props = JString z ->
  issues_at "zipCode" (issues_of insertCustomerSchema (JObject props))
  = ((if (10 <? length z)%nat
      then [mkIssue too_big ["zipCode"]
              ("String must contain at most " ++ pretty 10%nat ++ " character(s)")]
      else [])
     ++ (if Regex.test zipCodePattern z then []
         else [mkIssue invalid_string ["zipCode"] zipCode_message]))%list.
Proof.
  intros Hget.
  rewrite (issues_at_object _ _ "zipCode"
             (ZodString [ck_max 10 None;
                         ck_regex zipCodePattern (Some zipCode_message)]));
    [| apply customer_keys_distinct | vm_compute; tauto].
  rewrite Hget, string_issues. cbn [flat_map run_string_check message_or].
  rewrite app_nil_r. reflexivity.
Qed.

Lemma phone_issues props ph :
  get_prop (js "phone") props = JString ph ->
  issues_at "phone" (issues_of insertCustomerSchema (JObject props))
  = if Regex.test phonePattern ph then []
    else [mkIssue invalid_string ["phone"] phone_message].
Proof.
  intros Hget.
  rewrite (issues_at_object _ _ "phone"
             (ZodString [ck_regex phonePattern (Some phone_message)]));
    [| apply customer_keys_distinct | vm_compute; tauto].
  rewrite Hget, string_issues. cbn [flat_map run_string_check message_or].
  destruct (Regex.test phonePattern ph); reflexivity.
Qed.

(** The state field: at most two code units (from the column), and exactly
    two (from the refinement). *)
Lemma state_issues props s :
  get_prop (js "state") props = JString s ->
  issues_at "state" (issues_of insertCustomerSchema (JObject props))
  = ((if (2 <? length s)%nat
      then [mkIssue too_big ["state"]
              ("String must contain at most " ++ pretty 2%nat ++ " character(s)")]
      else [])
     ++ (if (2 <? length s)%nat
         then [mkIssue too_big ["state"] "State must be 2 characters"]
         else if (length s <? 2)%nat
         then [mkIssue too_small ["state"] "State must be 2 characters"]
         else []))%list.
Proof.
  intros Hget.
  rewrite (issues_at_object _ _ "state"
             (ZodString [ck_max 2 None;
                         ck_length 2 (Some "State must be 2 characters")]));
    [| apply customer_keys_distinct | vm_compute; tauto].
  rewrite Hget, string_issues. cbn [flat_map run_string_check message_or].
  rewrite app_nil_r. reflexivity.
Qed.

End CustomerValidation.


(* ===================================================================== *)
(** * The ticket validator *)
(* ===================================================================== *)

Module TicketValidation.
Import Zod ZodFacts ObjectFacts Validators.
Local Open Scope string_scope.

Definition ticket_fields : list string :=
  ["id"; "customerId"; "title"; "description"; "completed"; "tech";
   "createdAt"; "updatedAt"].

Lemma ticket_fields_shape : map fst (shape insertTicketSchema) = ticket_fields.
Proof. reflexivity. Qed.

Lemma ticket_keys_distinct :
  List.NoDup (map fst (shape insertTicketSchema)).
Proof.
  rewrite ticket_fields_shape. unfold ticket_fields.
  repeat (constructor; [simpl; intuition discriminate|]). constructor.
Qed.

Lemma ticket_well_worded :
  forallb (fun kv => well_worded (snd kv)) (shape insertTicketSchema) = true.
Proof. reflexivity. Qed.

(** The validator of the id field, as the schema declares it. *)
Definition id_schema : ZodType := z_union [z_number; z_literal "(New)"].

Lemma id_schema_in_shape : In ("id", id_schema) (shape insertTicketSchema).
Proof. left. reflexivity. Qed.

(** What the id validator accepts. *)
Definition id_shape (v : jsval) : Prop :=
  (exists x, v = JNumber x) \/ v = JString (js "(New)").

Lemma id_schema_accepts p v :
  snd (_parse id_schema p v) = [] <-> id_shape v.
Proof.
  unfold id_shape, id_schema, z_union, z_number, z_literal.
  destruct v; cbn;
    try (split; [discriminate | intros [[x Hx] | Hx]; discriminate]).
  - split; eauto.
  - unfold jsstring_eqb. case_bool_decide as Hs; cbn.
    + subst s. split; auto.
    + split; [discriminate|]. intros [[x Hx] | Hx]; [discriminate|].
      injection Hx as Hx. contradiction.
Qed.

Lemma id_issues props :
  issues_at "id" (issues_of insertTicketSchema (JObject props))
  = snd (_parse id_schema ["id"] (get_prop (js "id") props)).
Proof.
  apply issues_at_object;
    [apply ticket_keys_distinct | apply id_schema_in_shape].
Qed.

End TicketValidation.


(* ===================================================================== *)
(** * Sample data *)
(* ===================================================================== *)

(** A record store with one customer and two failing ids, and a decimal
    reading of [parseInt] (a sign and the leading digits, [None] for [NaN];
    leading white space and the hexadecimal prefix are not read), to run the
    page and the form on concrete inputs. *)
Module Sample.

Definition number : Type := option Z.

Fixpoint read_digits (acc : option Z) (s : jsstring) : option Z :=
  match s with
  | c :: rest =>
      if Regex.is_digit c
      then read_digits (Some (10 * default 0%Z acc + (Z.of_N c - 48))%Z) rest
      else acc
  | [] => acc
  end.

Definition parseInt_decimal (s : jsstring) : number :=
  match s with
  | 45%N :: rest => Z.opp <$> read_digits None rest
  | 43%N :: rest => read_digits None rest
  | _ => read_digits None s
  end.

Definition alice : Customer.t number :=
  Customer.mk (Some 1%Z) (js "Alice") (js "Smith") (js "alice@example.com")
    (js "555-123-4567") (js "1 Main St") None (js "Springfield") (js "IL")
    (js "62701") None true 0 0.

Definition connection_error : thrown :=
  ErrorObject "Error" "connection refused".

Definition connection_message : thrown :=
  NonError (JString (js "connection refused")).

Definition getCustomer (id : number) : completion (option (Customer.t number)) :=
  match id with
  | Some 1%Z => Normal (Some alice)
  | Some 500%Z => Throw connection_error
  | Some 501%Z => Throw connection_message
  | _ => Normal None
  end.

Definition params_of (customerId : string) : gmap jsstring jsstring :=
  {[ js "customerId" := js customerId ]}.

Definition completed_ticket : TicketForm.InsertTicket number :=
  TicketForm.mkTicket (Value (TicketForm.IdNumber (Some 4%Z))) (Value (Some 1%Z))
    (Value (js "Cracked screen")) (Value (js "Replace the panel"))
    (Value true) (Value (js "tech@example.com")) Undefined Undefined.

Definition ticket_without_customer : TicketForm.InsertTicket number :=
  TicketForm.mkTicket (Value (TicketForm.IdNumber (Some 4%Z))) Undefined
    (Value (js "Cracked screen")) Null
    (Value false) Undefined Undefined Undefined.

End Sample.

(* ===================================================================== *)
(** * Properties of the ticket form *)
(* ===================================================================== *)

Section TicketFormProperties.
Import TicketForm.
Context {number : Type}.
Implicit Types (customer : Customer.t number) (ticket : maybe (InsertTicket number)).

Lemma default_of_field {A : Type} ticket (f : InsertTicket number -> maybe A)
    (blank v : A) :
  field ticket f = Value v -> ticket ?. f ?? blank = v.
Proof. unfold field. intros ->. reflexivity. Qed.

Lemma default_of_missing {A : Type} ticket (f : InsertTicket number -> maybe A)
    (blank : A) :
  (forall v, field ticket f <> Value v) -> ticket ?. f ?? blank = blank.
Proof.
  unfold field. intros H. destruct (ticket ?. f) as [| |v]; try reflexivity.
  exfalso. apply (H v). reflexivity.
Qed.

End TicketFormProperties.

(** C1.  For every optional existing ticket, the default computed for each
    of the six fields of the form (id, customerId, title, description,
    completed, tech) is the record's value wherever the record has one, and
    the blank default otherwise: the sentinel "(New)" for the id, the id of
    the customer the form was opened for for customerId, the empty string
    for title and description, false for completed, the placeholder email
    for tech.  In particular a record with completed equal to true gives
    true.  A field has a value when it is neither [undefined] nor [null];
    with no record at all (the ticket is [undefined] or [null]) every field
    gets its blank default. *)
Theorem TicketForm_defaultValues_follow_record
    (number : Type) (customer : Customer.t number)
    (ticket : maybe (TicketForm.InsertTicket number)) :
  let d := TicketForm.defaultValues customer ticket in
  (forall t, ticket = Value t ->
     (forall v, TicketForm.id t = Value v -> TicketForm.d_id d = v)
     /\ (forall v, TicketForm.customerId t = Value v ->
                   TicketForm.d_customerId d = v)
     /\ (forall v, TicketForm.title t = Value v -> TicketForm.d_title d = v)
     /\ (forall v, TicketForm.description t = Value v ->
                   TicketForm.d_description d = v)
     /\ (forall v, TicketForm.completed t = Value v ->
                   TicketForm.d_completed d = v)
     /\ (forall v, TicketForm.tech t = Value v -> TicketForm.d_tech d = v)
     /\ (TicketForm.completed t = Value true -> TicketForm.d_completed d = true)
     /\ (TicketForm.id t = Undefined \/ TicketForm.id t = Null ->
         TicketForm.d_id d = TicketForm.IdNew)
     /\ (TicketForm.customerId t = Undefined \/ TicketForm.customerId t = Null ->
         TicketForm.d_customerId d = Customer.id customer)
     /\ (TicketForm.title t = Undefined \/ TicketForm.title t = Null ->
         TicketForm.d_title d = js "")
     /\ (TicketForm.description t = Undefined \/ TicketForm.description t = Null ->
         TicketForm.d_description d = js "")
     /\ (TicketForm.completed t = Undefined \/ TicketForm.completed t = Null ->
         TicketForm.d_completed d = false)
     /\ (TicketForm.tech t = Undefined \/ TicketForm.tech t = Null ->
         TicketForm.d_tech d = js "new-ticket@example.com"))
  /\
  (ticket = Undefined \/ ticket = Null ->
   TicketForm.d_id d = TicketForm.IdNew
   /\ TicketForm.d_customerId d = Customer.id customer
   /\ TicketForm.d_title d = js ""
   /\ TicketForm.d_description d = js ""
   /\ TicketForm.d_completed d = false
   /\ TicketForm.d_tech d = js "new-ticket@example.com").
Proof.
  intros d. subst d. unfold TicketForm.defaultValues. split.
  - intros t ->. simpl.
    repeat split; intros;
      repeat match goal with
             | H : _ \/ _ |- _ => destruct H
             | H : _ = _ |- _ => rewrite H
             end;
      reflexivity.
  - intros [-> | ->]; simpl; repeat split; reflexivity.
Qed.

(** The sentinel of the form is the string "(New)". *)
Example sentinel_id_is_the_New_string :
  TicketForm.TicketId_to_jsval TicketForm.IdNew = JString (js "(New)").
Proof. reflexivity. Qed.

Example defaults_copy_every_field :
  TicketForm.defaultValues Sample.alice (Value Sample.completed_ticket)
  = TicketForm.mkDefaults (TicketForm.IdNumber (Some 4%Z)) (Some 1%Z)
      (js "Cracked screen") (js "Replace the panel") true
      (js "tech@example.com").
Proof. reflexivity. Qed.

Example defaults_keep_the_ticket_customer :
  TicketForm.d_customerId
    (TicketForm.defaultValues Sample.alice
       (Value (TicketForm.mkTicket Undefined (Value (Some 7%Z)) Undefined
                 Undefined Undefined Undefined Undefined Undefined)))
  = Some 7%Z.
Proof. reflexivity. Qed.

Example defaults_of_completed_ticket :
  TicketForm.d_completed
    (TicketForm.defaultValues Sample.alice (Value Sample.completed_ticket)) = true
  /\ TicketForm.d_id
       (TicketForm.defaultValues Sample.alice (Value Sample.completed_ticket))
     = TicketForm.IdNumber (Some 4%Z).
Proof. split; reflexivity. Qed.

Example defaults_of_new_ticket :
  TicketForm.defaultValues Sample.alice Undefined
  = TicketForm.mkDefaults TicketForm.IdNew (Some 1%Z) (js "") (js "") false
      (js "new-ticket@example.com").
Proof. reflexivity. Qed.

Example defaults_of_null_description :
  TicketForm.d_description
    (TicketForm.defaultValues Sample.alice (Value Sample.ticket_without_customer))
  = js "".
Proof. reflexivity. Qed.

(** The id the form starts from always passes the id validator of the
    ticket schema: the sentinel of the form is the literal of the schema. *)
Lemma default_id_passes_validation
    (customer : Customer.t Q) (ticket : maybe (TicketForm.InsertTicket Q))
    (p : list string) :
  snd (Zod._parse TicketValidation.id_schema p
         (TicketForm.TicketId_to_jsval
            (TicketForm.d_id (TicketForm.defaultValues customer ticket))))
  = [].
Proof.
  apply TicketValidation.id_schema_accepts. unfold TicketValidation.id_shape.
  destruct (TicketForm.d_id (TicketForm.defaultValues customer ticket)) as [n|];
    simpl; eauto.
Qed.

(** C9.  Opened with no existing ticket, or with a ticket whose customerId
    is undefined, the form's default customerId is the id of the customer it
    was opened for. *)
Theorem TicketForm_default_customerId
    (number : Type) (customer : Customer.t number)
    (ticket : maybe (TicketForm.InsertTicket number)) :
  (ticket = Undefined \/
   exists t, ticket = Value t /\ TicketForm.customerId t = Undefined) ->
  TicketForm.d_customerId (TicketForm.defaultValues customer ticket)
  = Customer.id customer.
Proof.
  intros [-> | (t & -> & Ht)]; simpl.
  - reflexivity.
  - rewrite Ht. reflexivity.
Qed.

Lemma TicketForm_default_customerId_witness :
  (Value Sample.ticket_without_customer = Undefined \/
   exists t, Value Sample.ticket_without_customer = Value t /\
             TicketForm.customerId t = Undefined) /\
  TicketForm.d_customerId
    (TicketForm.defaultValues Sample.alice (Value Sample.ticket_without_customer))
  = Some 1%Z.
Proof.
  assert (H : Value Sample.ticket_without_customer = Undefined \/
              exists t, Value Sample.ticket_without_customer = Value t /\
                        TicketForm.customerId t = Undefined).
  { right. exists Sample.ticket_without_customer. split; reflexivity. }
  split; [exact H|].
  exact (TicketForm_default_customerId Sample.number Sample.alice
           (Value Sample.ticket_without_customer) H).
Defined.

(* ===================================================================== *)
(** * Properties of the customer form page *)
(* ===================================================================== *)

Section PageProperties.
Import CustomerFormPage.
Variable number : Type.
Variable parseInt : jsstring -> number.
Variable getCustomer : number -> completion (option (Customer.t number)).

Let page := CustomerFormPage number parseInt getCustomer.

(** A rejected parameter promise. *)
Lemma page_rejected_params e :
  page (Throw e) (initial number)
  = if instanceof_Error e
    then (mkWorld number
            [mkEntry number error "=== DEBUG: Error caught:" (P_thrown number e)]
            [e] [], Throw e)
    else (mkWorld number
            [mkEntry number error "=== DEBUG: Error caught:" (P_thrown number e)]
            [] [], Normal None).
Proof.
  unfold page, CustomerFormPage, try_catch, bind, await, console_error,
    captureException, throw, ret.
  simpl. destruct (instanceof_Error e); reflexivity.
Qed.

(** No [customerId], or an empty one: the new-customer form. *)
Lemma page_new params :
  params !! js "customerId" = None \/ params !! js "customerId" = Some [] ->
  snd (page (Normal params) (initial number)) = Normal (Some (CustomerForm None))
  /\ queries number (fst (page (Normal params) (initial number))) = []
  /\ sentry number (fst (page (Normal params) (initial number))) = [].
Proof.
  intros H. unfold page, CustomerFormPage, try_catch, bind, await, console_log, ret.
  simpl. destruct H as [-> | ->]; simpl; auto.
Qed.

(** A non-empty [customerId]: one query, for [parseInt customerId]; then
    by what the record store answers. *)
Lemma page_edit params c cid :
  params !! js "customerId" = Some (c :: cid) ->
  queries number (fst (page (Normal params) (initial number)))
  = [parseInt (c :: cid)]
  /\ match getCustomer (parseInt (c :: cid)) with
     | Normal None =>
         snd (page (Normal params) (initial number))
         = Normal (Some (NotFound (c :: cid) (mkBackButton "Go Back" "default" "ml-4")))
         /\ sentry number (fst (page (Normal params) (initial number))) = []
     | Normal (Some customer) =>
         snd (page (Normal params) (initial number))
         = Normal (Some (CustomerForm (Some customer)))
         /\ sentry number (fst (page (Normal params) (initial number))) = []
     | Throw e =>
         if instanceof_Error e
         then snd (page (Normal params) (initial number)) = Throw e
              /\ sentry number (fst (page (Normal params) (initial number))) = [e]
         else snd (page (Normal params) (initial number)) = Normal None
              /\ sentry number (fst (page (Normal params) (initial number))) = []
     end.
Proof.
  intros H.
  unfold page, CustomerFormPage, try_catch, bind, await, console_log,
    console_error, captureException, fetch, throw, ret.
  simpl. rewrite H. simpl.
  destruct (getCustomer (parseInt (c :: cid))) as [[customer|]|e]; simpl; auto.
  destruct (instanceof_Error e); simpl; auto.
Qed.

End PageProperties.

(** X10.  Whatever the page raises was reported first, and is an [Error]; when
    the page returns, nothing was reported. *)
Lemma CustomerFormPage_raises_only_reported
    (number : Type) (parseInt : jsstring -> number)
    (getCustomer : number -> completion (option (Customer.t number)))
    (searchParams : completion (gmap jsstring jsstring)) :
  match CustomerFormPage.render parseInt getCustomer searchParams with
  | Throw e =>
      CustomerFormPage.captured parseInt getCustomer searchParams = [e]
      /\ instanceof_Error e = true
  | Normal _ =>
      CustomerFormPage.captured parseInt getCustomer searchParams = []
  end.
Proof.
  unfold CustomerFormPage.render, CustomerFormPage.captured.
  destruct searchParams as [params | e].
  - destruct (params !! js "customerId") as [[|c cid]|] eqn:Hp.
    + destruct (page_new number parseInt getCustomer params) as (-> & _ & ->);
        auto.
    + pose proof (page_edit number parseInt getCustomer params c cid Hp) as [_ H].
      destruct (getCustomer (parseInt (c :: cid))) as [[customer|]|e].
      * destruct H as [-> ->]. reflexivity.
      * destruct H as [-> ->]. reflexivity.
      * destruct (instanceof_Error e) eqn:He; destruct H as [-> ->]; auto.
    + destruct (page_new number parseInt getCustomer params) as (-> & _ & ->);
        auto.
  - rewrite page_rejected_params.
    destruct (instanceof_Error e) eqn:He; simpl; auto.
Qed.

(** C2 (amended).  An exception raised while the page awaits its
    parameters or fetches the customer, when it is an instance of [Error],
    is forwarded to the error-reporting sink and raised again by the page.
    A raised value that is not an instance of [Error] is only written to
    the console: nothing is forwarded, nothing is raised, and the page
    returns [undefined]. *)
Theorem CustomerFormPage_reports_and_rethrows_errors
    (number : Type) (parseInt : jsstring -> number)
    (getCustomer : number -> completion (option (Customer.t number)))
    (searchParams : completion (gmap jsstring jsstring)) (e : thrown) :
  (searchParams = Throw e \/
   exists params customerId,
     searchParams = Normal params /\
     params !! js "customerId" = Some customerId /\
     customerId <> [] /\
     getCustomer (parseInt customerId) = Throw e) ->
  (instanceof_Error e = true ->
   CustomerFormPage.render parseInt getCustomer searchParams = Throw e
   /\ CustomerFormPage.captured parseInt getCustomer searchParams = [e])
  /\
  (instanceof_Error e = false ->
   CustomerFormPage.render parseInt getCustomer searchParams = Normal None
   /\ CustomerFormPage.captured parseInt getCustomer searchParams = []).
Proof.
  intros Hraise.
  unfold CustomerFormPage.render, CustomerFormPage.captured.
  destruct Hraise as [-> | (params & cid & -> & Hp & Hne & Hget)].
  - rewrite page_rejected_params.
    split; intros He; rewrite He; split; reflexivity.
  - destruct cid as [|c cid]; [contradiction|].
    pose proof (page_edit number parseInt getCustomer params c cid Hp) as [_ H].
    rewrite Hget in H.
    split; intros He; rewrite He in H; exact H.
Qed.

Lemma CustomerFormPage_reports_and_rethrows_errors_witness :
  (Normal (Sample.params_of "500") = Throw Sample.connection_error \/
   exists params customerId,
     Normal (Sample.params_of "500") = Normal params /\
     params !! js "customerId" = Some customerId /\
     customerId <> [] /\
     Sample.getCustomer (Sample.parseInt_decimal customerId)
     = Throw Sample.connection_error) /\
  instanceof_Error Sample.connection_error = true /\
  CustomerFormPage.render Sample.parseInt_decimal Sample.getCustomer
    (Normal (Sample.params_of "500")) = Throw Sample.connection_error /\
  CustomerFormPage.captured Sample.parseInt_decimal Sample.getCustomer
    (Normal (Sample.params_of "500")) = [Sample.connection_error].
Proof.
  assert (H : Normal (Sample.params_of "500") = Throw Sample.connection_error \/
              exists params customerId,
                Normal (Sample.params_of "500") = Normal params /\
                params !! js "customerId" = Some customerId /\
                customerId <> [] /\
                Sample.getCustomer (Sample.parseInt_decimal customerId)
                = Throw Sample.connection_error).
  { right. exists (Sample.params_of "500"), (js "500").
    split; [reflexivity|]. split; [apply lookup_singleton_eq|].
    split; [discriminate | reflexivity]. }
  split; [exact H|]. split; [reflexivity|].
  exact (proj1 (CustomerFormPage_reports_and_rethrows_errors Sample.number
                  Sample.parseInt_decimal Sample.getCustomer
                  (Normal (Sample.params_of "500")) Sample.connection_error H)
           eq_refl).
Defined.

(** C2, as stated, fails: when the fetch raises a value that is not an
    instance of [Error], the page reports nothing and raises nothing; it
    returns [undefined]. *)
Lemma CustomerFormPage_drops_non_errors :
  Sample.params_of "501" !! js "customerId" = Some (js "501") /\
  Sample.getCustomer (Sample.parseInt_decimal (js "501"))
  = Throw Sample.connection_message /\
  CustomerFormPage.render Sample.parseInt_decimal Sample.getCustomer
    (Normal (Sample.params_of "501")) = Normal None /\
  CustomerFormPage.captured Sample.parseInt_decimal Sample.getCustomer
    (Normal (Sample.params_of "501")) = [].
Proof.
  assert (Hp : Sample.params_of "501" !! js "customerId" = Some (js "501"))
    by apply lookup_singleton_eq.
  split; [exact Hp|]. split; [reflexivity|].
  pose proof (page_edit Sample.number Sample.parseInt_decimal Sample.getCustomer
                (Sample.params_of "501") _ _ Hp) as [_ H].
  exact H.
Qed.

(** C3 (amended).  With no [customerId], or an empty one, the page renders
    the form with no existing record and queries nothing.  With a non-empty
    [customerId] it queries the record store once, for [parseInt customerId];
    when the store answers with no record it renders the not-found state with
    the back button, and when it answers with a record it renders the form on
    that record. *)
Theorem CustomerFormPage_modes
    (number : Type) (parseInt : jsstring -> number)
    (getCustomer : number -> completion (option (Customer.t number)))
    (params : gmap jsstring jsstring) :
  ((params !! js "customerId" = None \/ params !! js "customerId" = Some []) ->
   CustomerFormPage.render parseInt getCustomer (Normal params)
   = Normal (Some (CustomerFormPage.CustomerForm None))
   /\ CustomerFormPage.fetched parseInt getCustomer (Normal params) = [])
  /\
  (forall customerId,
     params !! js "customerId" = Some customerId -> customerId <> [] ->
     CustomerFormPage.fetched parseInt getCustomer (Normal params)
     = [parseInt customerId]
     /\ (getCustomer (parseInt customerId) = Normal None ->
         CustomerFormPage.render parseInt getCustomer (Normal params)
         = Normal (Some (CustomerFormPage.NotFound customerId
                           (CustomerFormPage.mkBackButton "Go Back" "default" "ml-4"))))
     /\ (forall customer,
           getCustomer (parseInt customerId) = Normal (Some customer) ->
           CustomerFormPage.render parseInt getCustomer (Normal params)
           = Normal (Some (CustomerFormPage.CustomerForm (Some customer))))).
Proof.
  unfold CustomerFormPage.render, CustomerFormPage.fetched. split.
  - intros H.
    destruct (page_new number parseInt getCustomer params H) as (Hr & Hq & _).
    auto.
  - intros [|c cid] Hp Hne; [contradiction|].
    pose proof (page_edit number parseInt getCustomer params c cid Hp) as [Hq H].
    split; [exact Hq|]. split.
    + intros Hget. rewrite Hget in H. apply H.
    + intros customer Hget. rewrite Hget in H. apply H.
Qed.

(** C3, as stated, fails: a [customerId] that is present and empty is
    neither parsed nor fetched; the page renders the new-customer form. *)
Lemma CustomerFormPage_empty_customerId :
  Sample.params_of "" !! js "customerId" = Some (js "") /\
  CustomerFormPage.fetched Sample.parseInt_decimal Sample.getCustomer
    (Normal (Sample.params_of "")) = [] /\
  CustomerFormPage.render Sample.parseInt_decimal Sample.getCustomer
    (Normal (Sample.params_of ""))
  = Normal (Some (CustomerFormPage.CustomerForm None)).
Proof.
  assert (Hp : Sample.params_of "" !! js "customerId" = Some (js ""))
    by apply lookup_singleton_eq.
  split; [exact Hp|].
  destruct (page_new Sample.number Sample.parseInt_decimal Sample.getCustomer
              (Sample.params_of "") (or_intror Hp)) as (Hr & Hq & _).
  split; [exact Hq | exact Hr].
Qed.

Example page_edit_existing_customer :
  CustomerFormPage.render Sample.parseInt_decimal Sample.getCustomer
    (Normal (Sample.params_of "1"))
  = Normal (Some (CustomerFormPage.CustomerForm (Some Sample.alice)))
  /\ CustomerFormPage.fetched Sample.parseInt_decimal Sample.getCustomer
       (Normal (Sample.params_of "1")) = [Some 1%Z].
Proof.
  assert (Hp : Sample.params_of "1" !! js "customerId" = Some (js "1"))
    by apply lookup_singleton_eq.
  destruct (page_edit Sample.number Sample.parseInt_decimal Sample.getCustomer
              (Sample.params_of "1") _ _ Hp) as [Hq [Hr _]].
  split; [exact Hr | exact Hq].
Qed.

Example page_unknown_customer :
  CustomerFormPage.render Sample.parseInt_decimal Sample.getCustomer
    (Normal (Sample.params_of "2"))
  = Normal (Some (CustomerFormPage.NotFound (js "2")
                    (CustomerFormPage.mkBackButton "Go Back" "default" "ml-4"))).
Proof.
  assert (Hp : Sample.params_of "2" !! js "customerId" = Some (js "2"))
    by apply lookup_singleton_eq.
  destruct (page_edit Sample.number Sample.parseInt_decimal Sample.getCustomer
              (Sample.params_of "2") _ _ Hp) as [_ [Hr _]].
  exact Hr.
Qed.

(* ===================================================================== *)
(** * Properties of the migration runner *)
(* ===================================================================== *)

(** C10.  When applying the migrations raises, the runner writes the error
    to the console and terminates the process with exit code 1; when it
    succeeds, the runner writes the success message and leaves the exit code
    as it was. *)
Theorem migrate_main_outcome
    (migrate : string -> Migrate.M unit) (w : Migrate.Process) :
  (forall w1 e,
     migrate Migrate.migrationsFolder w = (w1, Migrate.Raised e) ->
     Migrate.main migrate w
     = (Migrate.mkProcess
          (Migrate.console w1 ++ [Migrate.Err "Error applying migrations:" e])
          (Some 1%Z),
        Migrate.Exited 1))
  /\
  (forall w1 u,
     migrate Migrate.migrationsFolder w = (w1, Migrate.Returned u) ->
     Migrate.main migrate w
     = (Migrate.mkProcess
          (Migrate.console w1 ++ [Migrate.Out "Migrations applied successfully."])
          (Migrate.exitCode w1),
        Migrate.Returned tt)).
Proof.
  unfold Migrate.main, Migrate.try_catch, Migrate.bind. split.
  - intros w1 e ->. reflexivity.
  - intros w1 u ->. reflexivity.
Qed.

Example migrate_fails :
  Migrate.main (fun _ w => (w, Migrate.Raised Sample.connection_error))
    (Migrate.mkProcess [] None)
  = (Migrate.mkProcess
       [Migrate.Err "Error applying migrations:" Sample.connection_error]
       (Some 1%Z),
     Migrate.Exited 1).
Proof. reflexivity. Qed.

Example migrate_fails_with_any_value :
  Migrate.main (fun _ w => (w, Migrate.Raised Sample.connection_message))
    (Migrate.mkProcess [] None)
  = (Migrate.mkProcess
       [Migrate.Err "Error applying migrations:" Sample.connection_message]
       (Some 1%Z),
     Migrate.Exited 1).
Proof. reflexivity. Qed.

Example migrate_succeeds :
  Migrate.main (fun _ w => (w, Migrate.Returned tt)) (Migrate.mkProcess [] None)
  = (Migrate.mkProcess [Migrate.Out "Migrations applied successfully."] None,
     Migrate.Returned tt).
Proof. reflexivity. Qed.

(* ===================================================================== *)
(** * Properties of the customer validator *)
(* ===================================================================== *)

Module SampleInputs.

(** A candidate customer, as the form submits it. *)
Definition customer_input (email phone state zipCode : string) : jsval :=
  JObject [
    (js "firstName", JString (js "John"));
    (js "lastName", JString (js "Doe"));
    (js "email", JString (js email));
    (js "phone", JString (js phone));
    (js "address1", JString (js "1 Main St"));
    (js "address2", JString (js ""));
    (js "city", JString (js "Springfield"));
    (js "state", JString (js state));
    (js "zipCode", JString (js zipCode));
    (js "notes", JString (js ""))
  ].

(** A candidate ticket. *)
Definition ticket_input (id : jsval) (title : string) : jsval :=
  JObject [
    (js "id", id);
    (js "customerId", JNumber 1);
    (js "title", JString (js title));
    (js "description", JString (js "Replace the panel"));
    (js "completed", JBoolean false);
    (js "tech", JString (js "new-ticket@example.com"))
  ].

End SampleInputs.

Example customer_accepted :
  Zod.safeParse Validators.insertCustomerSchema
    (SampleInputs.customer_input "john@example.com" "123-456-7890" "CA" "12345-6789")
  = Normal (Zod.SafeParseSuccess
              (SampleInputs.customer_input "john@example.com" "123-456-7890" "CA"
                 "12345-6789")).
Proof. vm_compute. reflexivity. Qed.

Example customer_all_wrong :
  exists issues,
    Zod.safeParse Validators.insertCustomerSchema
      (SampleInputs.customer_input "notanemail" "(123) 456-7890" "CAL" "12345-678")
    = Normal (Zod.SafeParseError issues)
    /\ Zod.messages_at "email" issues = ["Invalid email address"%string]
    /\ Zod.messages_at "phone" issues = [Validators.phone_message]
    /\ Zod.messages_at "zipCode" issues = [Validators.zipCode_message]
    /\ In "State must be 2 characters"%string (Zod.messages_at "state" issues).
Proof.
  eexists. split; [vm_compute; reflexivity|].
  vm_compute. repeat split; auto.
Qed.

(** C4.  A customer input whose email is a string without "@" fails
    validation, and the one message recorded for the email field is
    "Invalid email address". *)
Theorem insertCustomerSchema_email_without_at
    (props : list (jsstring * jsval)) (email : jsstring) :
  get_prop (js "email") props = JString email ->
  ~ In Patterns.at_sign email ->
  exists issues,
    Zod.safeParse Validators.insertCustomerSchema (JObject props)
    = Normal (Zod.SafeParseError issues)
    /\ Zod.messages_at "email" issues = ["Invalid email address"%string].
Proof.
  intros Hget Hat.
  pose proof (CustomerValidation.email_issues props email Hget) as Hi.
  destruct (Patterns.isEmail email) eqn:He.
  { apply Patterns.isEmail_has_at in He. contradiction. }
  exists (Zod.issues_of Validators.insertCustomerSchema (JObject props)). split.
  - apply ObjectFacts.safeParse_fails with (key := "email"%string).
    rewrite Hi. discriminate.
  - unfold Zod.messages_at. rewrite Hi. reflexivity.
Qed.

Lemma insertCustomerSchema_email_without_at_witness :
  get_prop (js "email") [(js "email", JString (js "notanemail"))]
  = JString (js "notanemail") /\
  ~ In Patterns.at_sign (js "notanemail") /\
  exists issues,
    Zod.safeParse Validators.insertCustomerSchema
      (JObject [(js "email", JString (js "notanemail"))])
    = Normal (Zod.SafeParseError issues)
    /\ Zod.messages_at "email" issues = ["Invalid email address"%string].
Proof.
  assert (Hat : ~ In Patterns.at_sign (js "notanemail")).
  { simpl. intuition discriminate. }
  split; [reflexivity|]. split; [exact Hat|].
  exact (insertCustomerSchema_email_without_at
           [(js "email", JString (js "notanemail"))] (js "notanemail")
           eq_refl Hat).
Defined.

(** C5.  The zip code field of a customer input is accepted exactly when it
    matches the zip pattern, and the phone field exactly when it matches the
    phone pattern; a value that does not match makes validation fail with the
    field's fixed message.  Zip codes "12345" and "12345-6789" match, "1234"
    and "12345-678" do not; phone "123-456-7890" matches, "1234567890" and
    "(123) 456-7890" do not. *)
Theorem insertCustomerSchema_zip_and_phone (props : list (jsstring * jsval)) :
  let issues := Zod.issues_of Validators.insertCustomerSchema (JObject props) in
  (forall zip, get_prop (js "zipCode") props = JString zip ->
     (Zod.issues_at "zipCode" issues = []
      <-> Regex.test Patterns.zipCodePattern zip = true)
     /\ (Regex.test Patterns.zipCodePattern zip = false ->
         In Validators.zipCode_message (Zod.messages_at "zipCode" issues)
         /\ Zod.safeParse Validators.insertCustomerSchema (JObject props)
            = Normal (Zod.SafeParseError issues)))
  /\
  (forall phone, get_prop (js "phone") props = JString phone ->
     (Zod.issues_at "phone" issues = []
      <-> Regex.test Patterns.phonePattern phone = true)
     /\ (Regex.test Patterns.phonePattern phone = false ->
         Zod.messages_at "phone" issues = [Validators.phone_message]
         /\ Zod.safeParse Validators.insertCustomerSchema (JObject props)
            = Normal (Zod.SafeParseError issues)))
  /\ Regex.test Patterns.zipCodePattern (js "12345") = true
  /\ Regex.test Patterns.zipCodePattern (js "12345-6789") = true
  /\ Regex.test Patterns.zipCodePattern (js "1234") = false
  /\ Regex.test Patterns.zipCodePattern (js "12345-678") = false
  /\ Regex.test Patterns.phonePattern (js "123-456-7890") = true
  /\ Regex.test Patterns.phonePattern (js "1234567890") = false
  /\ Regex.test Patterns.phonePattern (js "(123) 456-7890") = false.
Proof.
  intros issues. subst issues. split; [|split].
  - intros zip Hget.
    pose proof (CustomerValidation.zipCode_issues props zip Hget) as Hi.
    destruct (Regex.test Patterns.zipCodePattern zip) eqn:Ht.
    + split; [|discriminate]. split; [reflexivity|]. intros _.
      rewrite Hi. apply Patterns.zipCodePattern_shape in Ht.
      apply Patterns.zip_shape_length in Ht.
      destruct (Nat.ltb_spec 10 (length zip)) as [Hlt|_]; [lia | reflexivity].
    + split.
      * split; [|discriminate]. rewrite Hi. intros H.
        apply app_eq_nil in H as [_ H]. discriminate.
      * intros _. split.
        -- unfold Zod.messages_at. rewrite Hi, map_app, in_app_iff.
           right. left. reflexivity.
        -- apply ObjectFacts.safeParse_fails with (key := "zipCode"%string).
           rewrite Hi. intros H. apply app_eq_nil in H as [_ H]. discriminate.
  - intros phone Hget.
    pose proof (CustomerValidation.phone_issues props phone Hget) as Hi.
    destruct (Regex.test Patterns.phonePattern phone) eqn:Ht.
    + split; [|discriminate]. rewrite Hi. tauto.
    + split.
      * rewrite Hi. split; discriminate.
      * intros _. split.
        -- unfold Zod.messages_at. rewrite Hi. reflexivity.
        -- apply ObjectFacts.safeParse_fails with (key := "phone"%string).
           rewrite Hi. discriminate.
  - repeat split; vm_compute; reflexivity.
Qed.

(** C6.  For a customer input whose state is a string, the state field
    fails exactly when the string's length is not 2; every such failure
    carries the message "State must be 2 characters", and a string of length 2
    passes. *)
Theorem insertCustomerSchema_state_length
    (props : list (jsstring * jsval)) (state : jsstring) :
  get_prop (js "state") props = JString state ->
  let issues := Zod.issues_of Validators.insertCustomerSchema (JObject props) in
  (Zod.issues_at "state" issues <> [] <-> length state <> 2%nat)
  /\ (length state <> 2%nat ->
      In "State must be 2 characters"%string (Zod.messages_at "state" issues)
      /\ Zod.safeParse Validators.insertCustomerSchema (JObject props)
         = Normal (Zod.SafeParseError issues))
  /\ (length state = 2%nat -> Zod.issues_at "state" issues = []).
Proof.
  intros Hget issues. subst issues.
  pose proof (CustomerValidation.state_issues props state Hget) as Hi.
  assert (Hfail : length state <> 2%nat ->
                  Zod.issues_at "state"
                    (Zod.issues_of Validators.insertCustomerSchema (JObject props))
                  <> []
                  /\ In "State must be 2 characters"%string
                       (Zod.messages_at "state"
                          (Zod.issues_of Validators.insertCustomerSchema
                             (JObject props)))).
  { intros Hne. unfold Zod.messages_at. rewrite Hi.
    destruct (Nat.ltb_spec 2 (length state)) as [Hgt|Hle].
    - split; [discriminate|].
      rewrite map_app, in_app_iff. right. left. reflexivity.
    - destruct (Nat.ltb_spec (length state) 2) as [Hlt|Hge];
        [|exfalso; clear - Hne Hle Hge; lia].
      split; [discriminate|].
      rewrite map_app, in_app_iff. right. left. reflexivity. }
  assert (Hpass : length state = 2%nat ->
                  Zod.issues_at "state"
                    (Zod.issues_of Validators.insertCustomerSchema (JObject props))
                  = []).
  { intros Heq. rewrite Hi, Heq. reflexivity. }
  split; [|split].
  - split.
    + intros Hne Heq. exact (Hne (Hpass Heq)).
    + intros Hne. exact (proj1 (Hfail Hne)).
  - intros Hne. split; [exact (proj2 (Hfail Hne))|].
    exact (ObjectFacts.safeParse_fails _ _ "state"%string (proj1 (Hfail Hne))).
  - exact Hpass.
Qed.

Lemma insertCustomerSchema_state_length_witness :
  get_prop (js "state") [(js "state", JString (js "CAL"))] = JString (js "CAL") /\
  let issues := Zod.issues_of Validators.insertCustomerSchema
                  (JObject [(js "state", JString (js "CAL"))]) in
  (Zod.issues_at "state" issues <> [] <-> length (js "CAL") <> 2%nat)
  /\ (length (js "CAL") <> 2%nat ->
      In "State must be 2 characters"%string (Zod.messages_at "state" issues)
      /\ Zod.safeParse Validators.insertCustomerSchema
           (JObject [(js "state", JString (js "CAL"))])
         = Normal (Zod.SafeParseError issues))
  /\ (length (js "CAL") = 2%nat -> Zod.issues_at "state" issues = []).
Proof.
  split; [reflexivity|].
  exact (insertCustomerSchema_state_length
           [(js "state", JString (js "CAL"))] (js "CAL") eq_refl).
Defined.

Example state_two_letters_passes :
  Zod.issues_at "state"
    (Zod.issues_of Validators.insertCustomerSchema
       (SampleInputs.customer_input "john@example.com" "123-456-7890" "CA" "12345"))
  = [].
Proof. vm_compute. reflexivity. Qed.

Example state_one_letter_fails :
  Zod.messages_at "state"
    (Zod.issues_of Validators.insertCustomerSchema
       (SampleInputs.customer_input "john@example.com" "123-456-7890" "C" "12345"))
  = ["State must be 2 characters"%string].
Proof. vm_compute. reflexivity. Qed.

(* ===================================================================== *)
(** * Properties of the ticket validator *)
(* ===================================================================== *)

(** C7.  Run on any candidate input, the ticket insert validator returns:
    it never raises.  The result is a success, or a failure carrying at least
    one issue, every issue with a non-empty message.  When the candidate is an
    object, every issue is at a field of the schema, and the field-keyed map
    of messages has exactly one entry per failing field, holding that field's
    messages. *)
Theorem insertTicketSchema_returns_structured_result (data : jsval) :
  (Zod.safeParse Validators.insertTicketSchema data
   = Normal (Zod.SafeParseSuccess (Zod.output Validators.insertTicketSchema data))
   \/ exists issues,
        issues <> [] /\
        Zod.safeParse Validators.insertTicketSchema data
        = Normal (Zod.SafeParseError issues))
  /\
  (forall issues,
     Zod.safeParse Validators.insertTicketSchema data
     = Normal (Zod.SafeParseError issues) ->
     List.Forall (fun i => Zod.message i <> ""%string) issues
     /\ (forall props, data = JObject props ->
           List.Forall
             (fun i => exists key,
                         In key TicketValidation.ticket_fields
                         /\ Zod.path i = [key]) issues
           /\ (forall key,
                 Zod.fieldErrors issues !! key
                 = match Zod.messages_at key issues with
                   | [] => None
                   | msgs => Some msgs
                   end)
           /\ (forall key,
                 is_Some (Zod.fieldErrors issues !! key)
                 <-> Zod.issues_at key issues <> []))).
Proof.
  pose proof (ZodFacts.safeParse_cases Validators.insertTicketSchema data)
    as Hcases.
  split.
  - destruct Hcases as [[_ Hs] | [Hne Hs]]; [left; exact Hs | right].
    exists (snd (Zod.parse_object Validators.insertTicketSchema data)).
    split; assumption.
  - intros issues Hfail.
    assert (Hi : issues = snd (Zod.parse_object Validators.insertTicketSchema data)).
    { destruct Hcases as [[_ Hs] | [_ Hs]]; rewrite Hs in Hfail.
      - discriminate.
      - injection Hfail as <-. reflexivity. }
    clear Hfail Hcases. split.
    + rewrite List.Forall_forall. intros i Hin. rewrite Hi in Hin.
      exact (ObjectFacts.parse_object_worded _ _ _
               TicketValidation.ticket_well_worded Hin).
    + intros props ->.
      change (snd (Zod.parse_object Validators.insertTicketSchema (JObject props)))
        with (snd (Zod.parse_shape (Zod.shape Validators.insertTicketSchema) props))
        in Hi.
      assert (Hpaths : List.Forall
                         (fun i => exists key,
                                     In key TicketValidation.ticket_fields
                                     /\ Zod.path i = [key]) issues).
      { rewrite List.Forall_forall. intros i Hin. rewrite Hi in Hin.
        apply ObjectFacts.parse_shape_paths in Hin.
        rewrite TicketValidation.ticket_fields_shape in Hin. exact Hin. }
      assert (Hfields : List.Forall ObjectFacts.field_issue issues).
      { rewrite List.Forall_forall in Hpaths. rewrite List.Forall_forall.
        intros i Hin. destruct (Hpaths i Hin) as (key & _ & Hp).
        exists key. exact Hp. }
      split; [exact Hpaths|]. split.
      * intros key. exact (ObjectFacts.fieldErrors_lookup issues key Hfields).
      * intros key. rewrite (ObjectFacts.fieldErrors_lookup issues key Hfields).
        unfold Zod.messages_at.
        destruct (Zod.issues_at key issues) as [|i rest]; simpl.
        -- split; [intros [x Hx]; discriminate | intros H; contradiction].
        -- split; [discriminate | eauto].
Qed.

Example ticket_accepted :
  Zod.safeParse Validators.insertTicketSchema
    (SampleInputs.ticket_input (JString (js "(New)")) "Cracked screen")
  = Normal (Zod.SafeParseSuccess
              (SampleInputs.ticket_input (JString (js "(New)")) "Cracked screen")).
Proof. vm_compute. reflexivity. Qed.

Example ticket_two_failing_fields :
  exists issues,
    Zod.safeParse Validators.insertTicketSchema
      (SampleInputs.ticket_input (JString (js "new")) "")
    = Normal (Zod.SafeParseError issues)
    /\ Zod.fieldErrors issues
       = {[ "id"%string := ["Invalid input"%string];
            "title"%string := ["Title is required"%string] ]}.
Proof.
  eexists. split; [vm_compute; reflexivity|].
  apply map_eq. intros key.
  rewrite ObjectFacts.fieldErrors_lookup
    by (repeat constructor; eexists; reflexivity).
  destruct (decide (key = "id"%string)) as [->|Hid];
    [rewrite lookup_insert_eq; reflexivity|].
  destruct (decide (key = "title"%string)) as [->|Htitle];
    [rewrite lookup_insert_ne by discriminate;
     rewrite lookup_singleton_eq; reflexivity|].
  rewrite lookup_insert_ne by congruence.
  rewrite lookup_singleton_ne by congruence.
  unfold Zod.messages_at, Zod.issues_at. simpl.
  rewrite !bool_decide_eq_false_2 by congruence. reflexivity.
Qed.

Example ticket_not_an_object :
  Zod.safeParse Validators.insertTicketSchema JNull
  = Normal (Zod.SafeParseError
              [Zod.mkIssue Zod.invalid_type [] "Expected object, received null"]).
Proof. reflexivity. Qed.




Example ticket_id_number_accepted :
  Zod.issues_at "id"
    (Zod.issues_of Validators.insertTicketSchema
       (SampleInputs.ticket_input (JNumber 42) "Cracked screen")) = [].
Proof. vm_compute. reflexivity. Qed.

Example ticket_id_other_string_rejected :
  Zod.messages_at "id"
    (Zod.issues_of Validators.insertTicketSchema
       (SampleInputs.ticket_input (JString (js "(new)")) "Cracked screen"))
  = ["Invalid input"%string].
Proof. vm_compute. reflexivity. Qed.

Example ticket_id_missing_rejected :
  Zod.messages_at "id"
    (Zod.issues_of Validators.insertTicketSchema (JObject []))
  = ["Invalid input"%string].
Proof. vm_compute. reflexivity. Qed.


(* ===================================================================== *)
(** * Field by field: what an accepted input looks like *)
(* ===================================================================== *)

Module FieldFacts.
Import Zod ZodFacts ObjectFacts.

Lemma safeParse_success schema data d :
  safeParse schema data = Normal (SafeParseSuccess d) ->
  issues_of schema data = [] /\ d = output schema data.
Proof.
  intros H. unfold issues_of.
  destruct (safeParse_cases schema data) as [[Hnil Hs] | [_ Hs]];
    rewrite Hs in H.
  - injection H as <-. auto.
  - discriminate.
Qed.

Lemma safeParse_of_no_issue schema data :
  issues_of schema data = [] ->
  safeParse schema data = Normal (SafeParseSuccess (output schema data)).
Proof.
  intros H. unfold issues_of in H.
  destruct (safeParse_cases schema data) as [[_ Hs] | [Hne _]];
    [exact Hs | contradiction].
Qed.

(** With no issue at all, no field has one. *)
Lemma field_of_accepted schema props key fs :
  List.NoDup (map fst (shape schema)) ->
  In (key, fs) (shape schema) ->
  issues_of schema (JObject props) = [] ->
  snd (_parse fs [key] (get_prop (js key) props)) = [].
Proof.
  intros Hnd Hin Hnil.
  rewrite <- (issues_at_object schema props key fs Hnd Hin), Hnil.
  reflexivity.
Qed.

Lemma string_parse_nil checks p v :
  snd (_parse (ZodString checks) p v) = [] ->
  exists s, v = JString s /\ flat_map (run_string_check p s) checks = [].
Proof.
  destruct v; simpl; try discriminate.
  rewrite snd_checked. eauto.
Qed.

(** [min(1, message)] on a string: only the empty string fails. *)
Lemma min1_issues p s msg :
  flat_map (run_string_check p s) [ck_min 1 (Some msg)]
  = match s with
    | [] => [mkIssue too_small p msg]
    | _ => []
    end.
Proof. destruct s; reflexivity. Qed.

Lemma min1_nil p v msg :
  snd (_parse (ZodString [ck_min 1 (Some msg)]) p v) = [] ->
  exists s, v = JString s /\ s <> [].
Proof.
  intros H. apply string_parse_nil in H as (s & -> & H).
  rewrite min1_issues in H. exists s. split; [reflexivity|].
  destruct s; [discriminate H | discriminate].
Qed.

Lemma optional_nil inner p v :
  snd (_parse (ZodOptional inner) p v) = [] ->
  v = JUndefined \/ snd (_parse inner p v) = [].
Proof. destruct v; simpl; auto. Qed.

Lemma nullable_nil inner p v :
  snd (_parse (ZodNullable inner) p v) = [] ->
  v = JNull \/ snd (_parse inner p v) = [].
Proof. destruct v; simpl; auto. Qed.

Lemma number_parse_nil checks p v :
  snd (_parse (ZodNumber checks) p v) = [] -> exists x, v = JNumber x.
Proof. destruct v; simpl; try discriminate. eauto. Qed.

Lemma boolean_parse_nil p v :
  snd (_parse ZodBoolean p v) = [] -> exists b, v = JBoolean b.
Proof. destruct v; simpl; try discriminate. eauto. Qed.

End FieldFacts.

(* ===================================================================== *)
(** * More on the customer validator ([zod-schema/customer.ts]) *)
(* ===================================================================== *)

(** X1.  The zip pattern accepts exactly five digits, optionally followed by a
    hyphen and four digits; the phone pattern accepts exactly three digits,
    a hyphen, three digits, a hyphen and four digits.  Digits are the ten
    ASCII digits. *)
Theorem zip_and_phone_languages (s : jsstring) :
  (Regex.test Patterns.zipCodePattern s = true <-> Patterns.zip_shape s)
  /\ (Regex.test Patterns.phonePattern s = true <-> Patterns.phone_shape s)
  /\ (Regex.test Patterns.phonePattern s = true -> length s = 12%nat)
  /\ (Regex.test Patterns.zipCodePattern s = true ->
      length s = 5%nat \/ length s = 10%nat).
Proof.
  split; [apply Patterns.zipCodePattern_shape|].
  split; [apply Patterns.phonePattern_shape|]. split.
  - intros H. apply Patterns.phonePattern_shape in H
      as (a & b & c & -> & Ha & _ & Hb & _ & Hc & _).
    rewrite length_app. simpl. rewrite length_app. simpl. lia.
  - intros H. apply Patterns.zipCodePattern_shape in H.
    apply Patterns.zip_shape_length. exact H.
Qed.

(** The four required text fields of a customer and their messages. *)
Definition required_text_fields : list (string * string) :=
  [("firstName", "First name is required");
   ("lastName", "Last name is required");
   ("address1", "Address is required");
   ("city", "City is required")]%string.

(** X2.  For each of firstName, lastName, address1 and city, a string value is
    rejected exactly when it is empty, and the rejection carries the field's
    own message and nothing else. *)
Theorem insertCustomerSchema_required_text
    (props : list (jsstring * jsval)) (key msg : string) (s : jsstring) :
  In (key, msg) required_text_fields ->
  get_prop (js key) props = JString s ->
  Zod.messages_at key
    (Zod.issues_of Validators.insertCustomerSchema (JObject props))
  = match s with
    | [] => [msg]
    | _ => []
    end.
Proof.
  intros Hin Hget. unfold Zod.messages_at.
  assert (Hfs : In (key, Zod.ZodString [Zod.ck_min 1 (Some msg)])
                  (Zod.shape Validators.insertCustomerSchema)).
  { simpl in Hin.
    destruct Hin as [H | [H | [H | [H | []]]]]; injection H as <- <-;
      vm_compute; tauto. }
  rewrite (ObjectFacts.issues_at_object _ _ key _
             CustomerValidation.customer_keys_distinct Hfs).
  rewrite Hget, CustomerValidation.string_issues, FieldFacts.min1_issues.
  destruct s; reflexivity.
Qed.

Lemma insertCustomerSchema_required_text_witness :
  In ("city", "City is required")%string required_text_fields /\
  get_prop (js "city") [(js "city", JString (js ""))] = JString (js "") /\
  Zod.messages_at "city"
    (Zod.issues_of Validators.insertCustomerSchema
       (JObject [(js "city", JString (js ""))]))
  = ["City is required"%string].
Proof.
  assert (Hin : In ("city", "City is required")%string required_text_fields).
  { simpl. tauto. }
  split; [exact Hin|]. split; [reflexivity|].
  exact (insertCustomerSchema_required_text
           [(js "city", JString (js ""))] "city" "City is required" (js "")
           Hin eq_refl).
Defined.

(** X3.  Every customer input the validator accepts has non-empty strings for
    firstName, lastName, address1 and city, a state string of length exactly
    2, an email string that contains "@", a zip code of the zip shape and a
    phone number of the phone shape. *)
Theorem accepted_customer_is_well_formed
    (props : list (jsstring * jsval)) (data : jsval) :
  Zod.safeParse Validators.insertCustomerSchema (JObject props)
  = Normal (Zod.SafeParseSuccess data) ->
  (exists s, get_prop (js "firstName") props = JString s /\ s <> [])
  /\ (exists s, get_prop (js "lastName") props = JString s /\ s <> [])
  /\ (exists s, get_prop (js "address1") props = JString s /\ s <> [])
  /\ (exists s, get_prop (js "city") props = JString s /\ s <> [])
  /\ (exists s, get_prop (js "state") props = JString s /\ length s = 2%nat)
  /\ (exists s, get_prop (js "email") props = JString s
                /\ In Patterns.at_sign s)
  /\ (exists s, get_prop (js "zipCode") props = JString s
                /\ Patterns.zip_shape s)
  /\ (exists s, get_prop (js "phone") props = JString s
                /\ Patterns.phone_shape s).
Proof.
  intros Hs. apply FieldFacts.safeParse_success in Hs as [Hnil _].
  pose proof (fun key fs Hin =>
                FieldFacts.field_of_accepted Validators.insertCustomerSchema
                  props key fs CustomerValidation.customer_keys_distinct
                  Hin Hnil) as F.
  repeat split.
  - apply (FieldFacts.min1_nil ["firstName"%string] _ "First name is required").
    apply F. vm_compute. tauto.
  - apply (FieldFacts.min1_nil ["lastName"%string] _ "Last name is required").
    apply F. vm_compute. tauto.
  - apply (FieldFacts.min1_nil ["address1"%string] _ "Address is required").
    apply F. vm_compute. tauto.
  - apply (FieldFacts.min1_nil ["city"%string] _ "City is required").
    apply F. vm_compute. tauto.
  - assert (H : snd (Zod._parse
                       (Zod.ZodString
                          [Zod.ck_max 2 None;
                           Zod.ck_length 2 (Some "State must be 2 characters"%string)])
                       ["state"%string] (get_prop (js "state") props)) = [])
      by (apply F; vm_compute; tauto).
    apply FieldFacts.string_parse_nil in H as (s & Hv & H).
    exists s. split; [exact Hv|].
    cbn [flat_map Zod.run_string_check] in H.
    apply app_eq_nil in H as [_ H]. apply app_eq_nil in H as [H _].
    destruct (Nat.ltb_spec 2 (length s)); [discriminate H|].
    destruct (Nat.ltb_spec (length s) 2); [discriminate H | lia].
  - assert (H : snd (Zod._parse
                       (Zod.ZodString
                          [Zod.ck_email (Some "Invalid email address"%string)])
                       ["email"%string] (get_prop (js "email") props)) = [])
      by (apply F; vm_compute; tauto).
    apply FieldFacts.string_parse_nil in H as (s & Hv & H).
    exists s. split; [exact Hv|].
    cbn [flat_map Zod.run_string_check] in H.
    destruct (Patterns.isEmail s) eqn:He; [|discriminate H].
    apply Patterns.isEmail_has_at. exact He.
  - assert (H : snd (Zod._parse
                       (Zod.ZodString
                          [Zod.ck_max 10 None;
                           Zod.ck_regex Patterns.zipCodePattern
                             (Some Validators.zipCode_message)])
                       ["zipCode"%string] (get_prop (js "zipCode") props)) = [])
      by (apply F; vm_compute; tauto).
    apply FieldFacts.string_parse_nil in H as (s & Hv & H).
    exists s. split; [exact Hv|].
    cbn [flat_map Zod.run_string_check] in H.
    apply app_eq_nil in H as [_ H]. apply app_eq_nil in H as [H _].
    destruct (Regex.test Patterns.zipCodePattern s) eqn:Ht; [|discriminate H].
    apply Patterns.zipCodePattern_shape. exact Ht.
  - assert (H : snd (Zod._parse
                       (Zod.ZodString
                          [Zod.ck_regex Patterns.phonePattern
                             (Some Validators.phone_message)])
                       ["phone"%string] (get_prop (js "phone") props)) = [])
      by (apply F; vm_compute; tauto).
    apply FieldFacts.string_parse_nil in H as (s & Hv & H).
    exists s. split; [exact Hv|].
    cbn [flat_map Zod.run_string_check] in H.
    destruct (Regex.test Patterns.phonePattern s) eqn:Ht; [|discriminate H].
    apply Patterns.phonePattern_shape. exact Ht.
Qed.

Lemma accepted_customer_is_well_formed_witness :
  Zod.safeParse Validators.insertCustomerSchema
    (SampleInputs.customer_input "john@example.com" "123-456-7890" "CA" "12345")
  = Normal (Zod.SafeParseSuccess
              (SampleInputs.customer_input "john@example.com" "123-456-7890"
                 "CA" "12345"))
  /\ (exists s, JString (js "CA") = JString s /\ length s = 2%nat).
Proof.
  assert (H : Zod.safeParse Validators.insertCustomerSchema
                (SampleInputs.customer_input "john@example.com" "123-456-7890"
                   "CA" "12345")
              = Normal (Zod.SafeParseSuccess
                          (SampleInputs.customer_input "john@example.com"
                             "123-456-7890" "CA" "12345")))
    by (vm_compute; reflexivity).
  split; [exact H|].
  exact (proj1 (proj2 (proj2 (proj2 (proj2
           (accepted_customer_is_well_formed _ _ H)))))).
Defined.

Definition customer_required_fields : list string :=
  ["firstName"; "lastName"; "email"; "phone"; "address1"; "city"; "state";
   "zipCode"]%string.

Definition customer_optional_fields : list string :=
  ["id"; "address2"; "notes"; "active"; "createdAt"; "updatedAt"]%string.

Ltac pick_field :=
  vm_compute; repeat (first [left; reflexivity | right]).

Ltac customer_field key :=
  erewrite (ObjectFacts.issues_at_object _ _ key _
              CustomerValidation.customer_keys_distinct) by pick_field.

Ltac customer_field_here :=
  match goal with
  | |- context [Zod.issues_at ?key _] => customer_field key
  end.

(** X4.  A customer input that leaves out firstName, lastName, email, phone,
    address1, city, state or zipCode is rejected on that field; one that
    leaves out id, address2, notes, active, createdAt or updatedAt is not.
    Of the fields that may be left out, address2 and notes may also be null. *)
Theorem insertCustomerSchema_missing_fields
    (props : list (jsstring * jsval)) (key : string) :
  let issues := Zod.issues_of Validators.insertCustomerSchema (JObject props) in
  (get_prop (js key) props = JUndefined ->
   In key customer_required_fields ->
   Zod.issues_at key issues <> []
   /\ Zod.safeParse Validators.insertCustomerSchema (JObject props)
      = Normal (Zod.SafeParseError issues))
  /\ (get_prop (js key) props = JUndefined ->
      In key customer_optional_fields ->
      Zod.issues_at key issues = [])
  /\ (get_prop (js key) props = JNull ->
      In key ["address2"; "notes"]%string ->
      Zod.issues_at key issues = [])
  /\ (get_prop (js key) props = JNull ->
      In key ["id"; "active"; "createdAt"; "updatedAt"]%string ->
      Zod.issues_at key issues <> []).
Proof.
  intros issues. subst issues. split; [|split; [|split]].
  - intros Hget Hin.
    assert (Hne : Zod.issues_at key
                    (Zod.issues_of Validators.insertCustomerSchema (JObject props))
                  <> []).
    { simpl in Hin.
      repeat (destruct Hin as [<- | Hin];
              [customer_field_here; rewrite Hget; simpl; discriminate|]).
      contradiction. }
    split; [exact Hne|].
    exact (ObjectFacts.safeParse_fails _ _ key Hne).
  - intros Hget Hin. simpl in Hin.
    repeat (destruct Hin as [<- | Hin];
            [customer_field_here; rewrite Hget; reflexivity|]).
    contradiction.
  - intros Hget Hin. simpl in Hin.
    repeat (destruct Hin as [<- | Hin];
            [customer_field_here; rewrite Hget; reflexivity|]).
    contradiction.
  - intros Hget Hin. simpl in Hin.
    repeat (destruct Hin as [<- | Hin];
            [customer_field_here; rewrite Hget; simpl; discriminate|]).
    contradiction.
Qed.

Example empty_customer_fails_on_required_fields :
  map Zod.path (Zod.issues_of Validators.insertCustomerSchema (JObject []))
  = map (fun key => [key]) customer_required_fields.
Proof. vm_compute. reflexivity. Qed.

(* ===================================================================== *)
(** * More on the ticket validator ([zod-schema/ticket.ts]) *)
(* ===================================================================== *)

Ltac ticket_field key :=
  erewrite (ObjectFacts.issues_at_object _ _ key _
              TicketValidation.ticket_keys_distinct) by pick_field.

(** X5.  The text fields of a ticket.  An empty title, description or tech is
    rejected with the field's own message and a non-empty one is accepted.
    The description may be left out or null; tech may be left out but not
    null; the title may be neither. *)
Theorem insertTicketSchema_text_fields (props : list (jsstring * jsval)) :
  let issues := Zod.issues_of Validators.insertTicketSchema (JObject props) in
  (forall s, get_prop (js "title") props = JString s ->
     Zod.messages_at "title" issues
     = match s with [] => ["Title is required"%string] | _ => [] end)
  /\ (forall s, get_prop (js "description") props = JString s ->
        Zod.messages_at "description" issues
        = match s with [] => ["Description is required"%string] | _ => [] end)
  /\ (forall s, get_prop (js "tech") props = JString s ->
        Zod.messages_at "tech" issues
        = match s with [] => ["Tech is required"%string] | _ => [] end)
  /\ (get_prop (js "description") props = JUndefined
      \/ get_prop (js "description") props = JNull ->
      Zod.issues_at "description" issues = [])
  /\ (get_prop (js "tech") props = JUndefined ->
      Zod.issues_at "tech" issues = [])
  /\ (get_prop (js "tech") props = JNull ->
      Zod.issues_at "tech" issues <> [])
  /\ (get_prop (js "title") props = JUndefined
      \/ get_prop (js "title") props = JNull ->
      Zod.issues_at "title" issues <> []).
Proof.
  intros issues. subst issues. unfold Zod.messages_at.
  repeat split.
  - intros s Hget. ticket_field "title"%string. rewrite Hget.
    destruct s; reflexivity.
  - intros s Hget. ticket_field "description"%string. rewrite Hget.
    destruct s; reflexivity.
  - intros s Hget. ticket_field "tech"%string. rewrite Hget.
    destruct s; reflexivity.
  - intros [Hget | Hget]; ticket_field "description"%string; rewrite Hget;
      reflexivity.
  - intros Hget. ticket_field "tech"%string. rewrite Hget. reflexivity.
  - intros Hget. ticket_field "tech"%string. rewrite Hget. simpl. discriminate.
  - intros [Hget | Hget]; ticket_field "title"%string; rewrite Hget;
      simpl; discriminate.
Qed.

(** X6.  Every ticket input the validator accepts has an id that is a number or
    the string "(New)", a customerId that is a number, a non-empty title, a
    description that is left out, null or a non-empty string, a completed flag
    that is left out or a boolean, and a tech that is left out or a non-empty
    string. *)
Theorem accepted_ticket_is_well_formed
    (props : list (jsstring * jsval)) (data : jsval) :
  Zod.safeParse Validators.insertTicketSchema (JObject props)
  = Normal (Zod.SafeParseSuccess data) ->
  TicketValidation.id_shape (get_prop (js "id") props)
  /\ (exists x, get_prop (js "customerId") props = JNumber x)
  /\ (exists s, get_prop (js "title") props = JString s /\ s <> [])
  /\ (get_prop (js "description") props = JUndefined
      \/ get_prop (js "description") props = JNull
      \/ exists s, get_prop (js "description") props = JString s /\ s <> [])
  /\ (get_prop (js "completed") props = JUndefined
      \/ exists b, get_prop (js "completed") props = JBoolean b)
  /\ (get_prop (js "tech") props = JUndefined
      \/ exists s, get_prop (js "tech") props = JString s /\ s <> []).
Proof.
  intros Hs. apply FieldFacts.safeParse_success in Hs as [Hnil _].
  pose proof (fun key fs Hin =>
                FieldFacts.field_of_accepted Validators.insertTicketSchema
                  props key fs TicketValidation.ticket_keys_distinct
                  Hin Hnil) as F.
  split; [|split; [|split; [|split; [|split]]]].
  - apply (TicketValidation.id_schema_accepts ["id"%string]).
    apply F. apply TicketValidation.id_schema_in_shape.
  - eapply FieldFacts.number_parse_nil. apply F. pick_field.
  - apply (FieldFacts.min1_nil ["title"%string] _ "Title is required").
    apply F. pick_field.
  - assert (H : snd (Zod._parse
                       (Zod.ZodOptional
                          (Zod.ZodNullable
                             (Zod.ZodString
                                [Zod.ck_min 1 (Some "Description is required"%string)])))
                       ["description"%string]
                       (get_prop (js "description") props)) = [])
      by (apply F; pick_field).
    apply FieldFacts.optional_nil in H as [H | H]; [auto|].
    apply FieldFacts.nullable_nil in H as [H | H]; [auto|].
    right. right. eapply FieldFacts.min1_nil. exact H.
  - assert (H : snd (Zod._parse (Zod.ZodOptional Zod.ZodBoolean)
                       ["completed"%string]
                       (get_prop (js "completed") props)) = [])
      by (apply F; pick_field).
    apply FieldFacts.optional_nil in H as [H | H]; [auto|].
    right. eapply FieldFacts.boolean_parse_nil. exact H.
  - assert (H : snd (Zod._parse
                       (Zod.ZodOptional
                          (Zod.ZodString
                             [Zod.ck_min 1 (Some "Tech is required"%string)]))
                       ["tech"%string] (get_prop (js "tech") props)) = [])
      by (apply F; pick_field).
    apply FieldFacts.optional_nil in H as [H | H]; [auto|].
    right. eapply FieldFacts.min1_nil. exact H.
Qed.

Lemma accepted_ticket_is_well_formed_witness :
  Zod.safeParse Validators.insertTicketSchema
    (SampleInputs.ticket_input (JString (js "(New)")) "Cracked screen")
  = Normal (Zod.SafeParseSuccess
              (SampleInputs.ticket_input (JString (js "(New)")) "Cracked screen"))
  /\ TicketValidation.id_shape (JString (js "(New)")).
Proof.
  assert (H : Zod.safeParse Validators.insertTicketSchema
                (SampleInputs.ticket_input (JString (js "(New)")) "Cracked screen")
              = Normal (Zod.SafeParseSuccess
                          (SampleInputs.ticket_input (JString (js "(New)"))
                             "Cracked screen")))
    by (vm_compute; reflexivity).
  split; [exact H|].
  exact (proj1 (accepted_ticket_is_well_formed _ _ H)).
Defined.

(* ===================================================================== *)
(** * The ticket form against its validator *)
(* ===================================================================== *)

Module TicketFormValues.
Import TicketForm.

(** The object of default values, as the form hands it to its resolver. *)
Definition form_values (d : DefaultValues Q) : jsval :=
  JObject [
    (js "id", TicketId_to_jsval (d_id d));
    (js "customerId", JNumber (d_customerId d));
    (js "title", JString (d_title d));
    (js "description", JString (d_description d));
    (js "completed", JBoolean (d_completed d));
    (js "tech", JString (d_tech d))
  ].

Definition form_props (d : DefaultValues Q) : list (jsstring * jsval) :=
  match form_values d with
  | JObject props => props
  | _ => []
  end.

Lemma form_values_props d : form_values d = JObject (form_props d).
Proof. reflexivity. Qed.

Lemma form_id d : get_prop (js "id") (form_props d) = TicketId_to_jsval (d_id d).
Proof. reflexivity. Qed.
Lemma form_title d : get_prop (js "title") (form_props d) = JString (d_title d).
Proof. reflexivity. Qed.
Lemma form_description d :
  get_prop (js "description") (form_props d) = JString (d_description d).
Proof. reflexivity. Qed.
Lemma form_completed d :
  get_prop (js "completed") (form_props d) = JBoolean (d_completed d).
Proof. reflexivity. Qed.
Lemma form_tech d : get_prop (js "tech") (form_props d) = JString (d_tech d).
Proof. reflexivity. Qed.

End TicketFormValues.

(** X8.  The values a ticket form starts from, checked by the form's own
    validator.  The id and the completed flag always pass.  When the ticket
    has no title the title fails with "Title is required"; when it has no
    description (none given, or null) the description fails with "Description
    is required", so the starting values of a new ticket never validate.  When
    the ticket has no tech the placeholder passes. *)
Theorem TicketForm_defaults_against_validator
    (customer : Customer.t Q) (ticket : maybe (TicketForm.InsertTicket Q)) :
  let values :=
    TicketFormValues.form_values (TicketForm.defaultValues customer ticket) in
  let issues := Zod.issues_of Validators.insertTicketSchema values in
  Zod.issues_at "id" issues = []
  /\ Zod.issues_at "completed" issues = []
  /\ ((forall v, TicketForm.field ticket TicketForm.title <> Value v) ->
      Zod.messages_at "title" issues = ["Title is required"%string])
  /\ ((forall v, TicketForm.field ticket TicketForm.description <> Value v) ->
      Zod.messages_at "description" issues = ["Description is required"%string]
      /\ Zod.safeParse Validators.insertTicketSchema values
         = Normal (Zod.SafeParseError issues))
  /\ ((forall v, TicketForm.field ticket TicketForm.tech <> Value v) ->
      Zod.issues_at "tech" issues = []).
Proof.
  intros values issues. subst values issues.
  rewrite TicketFormValues.form_values_props.
  set (d := TicketForm.defaultValues customer ticket).
  split; [|split; [|split; [|split]]].
  - rewrite TicketValidation.id_issues, TicketFormValues.form_id.
    apply TicketValidation.id_schema_accepts.
    unfold TicketValidation.id_shape.
    destruct (TicketForm.d_id d); simpl; eauto.
  - ticket_field "completed"%string.
    rewrite TicketFormValues.form_completed. reflexivity.
  - intros Hmissing. unfold Zod.messages_at.
    ticket_field "title"%string. rewrite TicketFormValues.form_title.
    assert (Ht : TicketForm.d_title d = js "")
      by (apply default_of_missing; exact Hmissing).
    rewrite Ht. reflexivity.
  - intros Hmissing.
    assert (Hd : TicketForm.d_description d = js "")
      by (apply default_of_missing; exact Hmissing).
    assert (Hi : Zod.issues_at "description"
                   (Zod.issues_of Validators.insertTicketSchema
                      (JObject (TicketFormValues.form_props d)))
                 = [Zod.mkIssue Zod.too_small ["description"%string]
                      "Description is required"]).
    { ticket_field "description"%string.
      rewrite TicketFormValues.form_description, Hd. reflexivity. }
    split.
    + unfold Zod.messages_at. rewrite Hi. reflexivity.
    + apply ObjectFacts.safeParse_fails with (key := "description"%string).
      rewrite Hi. discriminate.
  - intros Hmissing. ticket_field "tech"%string.
    rewrite TicketFormValues.form_tech.
    assert (Ht : TicketForm.d_tech d = TicketForm.placeholder_tech)
      by (apply default_of_missing; exact Hmissing).
    rewrite Ht. reflexivity.
Qed.

Example new_ticket_form_does_not_validate :
  Zod.fieldErrors
    (Zod.issues_of Validators.insertTicketSchema
       (TicketFormValues.form_values
          (TicketForm.defaultValues
             (Customer.mk (1 : Q) (js "Alice") (js "Smith") (js "alice@example.com")
                (js "555-123-4567") (js "1 Main St") None (js "Springfield")
                (js "IL") (js "62701") None true 0 0)
             Undefined)))
  !! "title"%string = Some ["Title is required"%string].
Proof.
  rewrite ObjectFacts.fieldErrors_lookup
    by (repeat constructor; eexists; reflexivity).
  vm_compute. reflexivity.
Qed.

(* ===================================================================== *)
(** * The heading of the ticket form ([TicketForm.tsx]) *)
(* ===================================================================== *)

Module TicketFormView.
Import TicketForm.

Section Heading.
Variable number : Type.

(** The truth value of a number in a condition: false for zero and for
    [NaN], true for every other number. *)
Variable truthy_number : number -> bool.

(** The truth value of [ticket?.id]: a missing id is false, a number is
    as above, and the string "(New)" is true, as every non-empty string. *)
Definition truthy_id (i : maybe (TicketId number)) : bool :=
  match i with
  | Value (IdNumber n) => truthy_number n
  | Value IdNew => true
  | Undefined | Null => false
  end.

(** The text of the heading.  The second part is written in the source
    between plain double quotes, so it is the text itself, not a template. *)
Definition heading (ticket : maybe (InsertTicket number)) : string :=
  ((if truthy_id (ticket ?. id) then "Edit" else "New")
   ++ " Ticket" ++ " "
   ++ (if truthy_id (ticket ?. id) then "# ${ticket.id}" else "Form"))%string.

End Heading.

End TicketFormView.

(** X9.  The heading of the ticket form is one of two fixed texts, so it never
    shows the id of the ticket.  It is the edit heading exactly when the
    ticket has an id that counts as true: a ticket with the sentinel id
    "(New)" is headed as an edit, and a missing ticket, a missing id or an id
    that counts as false (zero) is headed as new. *)
Theorem TicketForm_heading
    (number : Type) (truthy_number : number -> bool)
    (ticket : maybe (TicketForm.InsertTicket number)) :
  let h := TicketFormView.heading number truthy_number ticket in
  (h = "Edit Ticket # ${ticket.id}"%string \/ h = "New Ticket Form"%string)
  /\ (h = "Edit Ticket # ${ticket.id}"%string
      <-> TicketFormView.truthy_id number truthy_number
            (TicketForm.field ticket TicketForm.id) = true)
  /\ (TicketForm.field ticket TicketForm.id = Value TicketForm.IdNew ->
      h = "Edit Ticket # ${ticket.id}"%string)
  /\ ((forall v, TicketForm.field ticket TicketForm.id <> Value v) ->
      h = "New Ticket Form"%string)
  /\ (forall n, TicketForm.field ticket TicketForm.id
                = Value (TicketForm.IdNumber n) ->
                truthy_number n = false -> h = "New Ticket Form"%string).
Proof.
  intros h. subst h. unfold TicketFormView.heading, TicketForm.field.
  destruct (ticket ?. TicketForm.id) as [| |[n|]] eqn:Hid; simpl;
    try (destruct (truthy_number n) eqn:Hn; simpl);
    repeat split; intros; try discriminate; try reflexivity; auto;
    try (exfalso;
         match goal with
         | H : forall v, _ <> Value v |- _ => eapply H; reflexivity
         end);
    try (match goal with
         | H : Value _ = Value _ |- _ => injection H as <-
         end; congruence).
Qed.

(* ===================================================================== *)
(** * More on the customer form page ([page.tsx]) *)
(* ===================================================================== *)

(** X11.  A render queries the record store at most once, and only when the
    parameters carry a non-empty customerId: never when the parameter promise
    rejects, when the parameter is absent or when it is empty. *)
Theorem CustomerFormPage_queries_at_most_once
    (number : Type) (parseInt : jsstring -> number)
    (getCustomer : number -> completion (option (Customer.t number)))
    (searchParams : completion (gmap jsstring jsstring)) :
  (length (CustomerFormPage.fetched parseInt getCustomer searchParams) <= 1)%nat
  /\ (forall e, searchParams = Throw e ->
        CustomerFormPage.fetched parseInt getCustomer searchParams = [])
  /\ (forall params, searchParams = Normal params ->
        (CustomerFormPage.fetched parseInt getCustomer searchParams = []
         <-> params !! js "customerId" = None
             \/ params !! js "customerId" = Some [])).
Proof.
  unfold CustomerFormPage.fetched.
  destruct searchParams as [params | e].
  - destruct (params !! js "customerId") as [[|c cid]|] eqn:Hp.
    + destruct (page_new number parseInt getCustomer params) as (_ & Hq & _);
        [auto|].
      rewrite Hq. split; [simpl; lia|]. split; [discriminate|].
      intros p [= <-]. rewrite Hp. tauto.
    + destruct (page_edit number parseInt getCustomer params c cid Hp) as [Hq _].
      rewrite Hq. split; [simpl; lia|]. split; [discriminate|].
      intros p [= <-]. rewrite Hp.
      split; [discriminate | intros [H | H]; discriminate].
    + destruct (page_new number parseInt getCustomer params) as (_ & Hq & _);
        [auto|].
      rewrite Hq. split; [simpl; lia|]. split; [discriminate|].
      intros p [= <-]. rewrite Hp. tauto.
  - rewrite page_rejected_params.
    destruct (instanceof_Error e); simpl;
      (split; [lia|]; split; [reflexivity | discriminate]).
Qed.

(** X12.  A render ends without an element only after a raise of a value that is
    not an instance of [Error]: in every other case the page returns an
    element or raises. *)
Theorem CustomerFormPage_renders_nothing_only_after_non_error
    (number : Type) (parseInt : jsstring -> number)
    (getCustomer : number -> completion (option (Customer.t number)))
    (searchParams : completion (gmap jsstring jsstring)) :
  CustomerFormPage.render parseInt getCustomer searchParams = Normal None ->
  exists e,
    instanceof_Error e = false
    /\ (searchParams = Throw e
        \/ exists params customerId,
             searchParams = Normal params
             /\ params !! js "customerId" = Some customerId
             /\ customerId <> []
             /\ getCustomer (parseInt customerId) = Throw e).
Proof.
  unfold CustomerFormPage.render.
  destruct searchParams as [params | e].
  - destruct (params !! js "customerId") as [[|c cid]|] eqn:Hp.
    + destruct (page_new number parseInt getCustomer params) as (Hr & _);
        [auto|].
      rewrite Hr. discriminate.
    + destruct (page_edit number parseInt getCustomer params c cid Hp) as [_ H].
      destruct (getCustomer (parseInt (c :: cid))) as [[customer|]|e] eqn:Hget.
      * destruct H as [-> _]. discriminate.
      * destruct H as [-> _]. discriminate.
      * destruct (instanceof_Error e) eqn:He.
        -- destruct H as [-> _]. discriminate.
        -- intros _. exists e. split; [exact He|]. right.
           exists params, (c :: cid). repeat split; auto; discriminate.
    + destruct (page_new number parseInt getCustomer params) as (Hr & _);
        [auto|].
      rewrite Hr. discriminate.
  - rewrite page_rejected_params.
    destruct (instanceof_Error e) eqn:He; simpl; [discriminate|].
    intros _. exists e. auto.
Qed.

Lemma CustomerFormPage_renders_nothing_only_after_non_error_witness :
  CustomerFormPage.render Sample.parseInt_decimal Sample.getCustomer
    (Normal (Sample.params_of "501")) = Normal None
  /\ exists e,
       instanceof_Error e = false
       /\ (Normal (Sample.params_of "501") = Throw e
           \/ exists params customerId,
                Normal (Sample.params_of "501") = Normal params
                /\ params !! js "customerId" = Some customerId
                /\ customerId <> []
                /\ Sample.getCustomer (Sample.parseInt_decimal customerId)
                   = Throw e).
Proof.
  assert (H : CustomerFormPage.render Sample.parseInt_decimal Sample.getCustomer
                (Normal (Sample.params_of "501")) = Normal None).
  { assert (Hp : Sample.params_of "501" !! js "customerId" = Some (js "501"))
      by apply lookup_singleton_eq.
    pose proof (page_edit Sample.number Sample.parseInt_decimal
                  Sample.getCustomer (Sample.params_of "501") _ _ Hp) as [_ H].
    exact (proj1 H). }
  split; [exact H|].
  exact (CustomerFormPage_renders_nothing_only_after_non_error Sample.number
           Sample.parseInt_decimal Sample.getCustomer
           (Normal (Sample.params_of "501")) H).
Defined.

Module PageConsole.
Import CustomerFormPage.

(** The values written to the console with [console.error]. *)
Definition logged_errors {number : Type} (entries : list (LogEntry number))
    : list thrown :=
  flat_map (fun entry =>
              match level number entry, payload number entry with
              | error, P_thrown _ e => [e]
              | _, _ => []
              end) entries.

Definition error_log {number : Type} (parseInt : jsstring -> number)
    (getCustomer : number -> completion (option (Customer.t number)))
    (searchParams : completion Params) : list thrown :=
  logged_errors
    (console number
       (fst (CustomerFormPage number parseInt getCustomer searchParams
               (initial number)))).

(** An exception is raised during a render: by the parameter promise, or
    by the fetch the page makes for a non-empty customerId. *)
Definition raises {number : Type} (parseInt : jsstring -> number)
    (getCustomer : number -> completion (option (Customer.t number)))
    (searchParams : completion Params) (e : thrown) : Prop :=
  searchParams = Throw e
  \/ exists params customerId,
       searchParams = Normal params
       /\ params !! js "customerId" = Some customerId
       /\ customerId <> []
       /\ getCustomer (parseInt customerId) = Throw e.

End PageConsole.

(** X13.  Whatever is raised during a render, an instance of [Error] or not, is
    written to the console with [console.error], once; a render during which
    nothing is raised writes no error to the console. *)
Theorem CustomerFormPage_logs_every_raise
    (number : Type) (parseInt : jsstring -> number)
    (getCustomer : number -> completion (option (Customer.t number)))
    (searchParams : completion (gmap jsstring jsstring)) :
  (forall e, PageConsole.raises parseInt getCustomer searchParams e ->
     PageConsole.error_log parseInt getCustomer searchParams = [e])
  /\ ((forall e, ~ PageConsole.raises parseInt getCustomer searchParams e) ->
      PageConsole.error_log parseInt getCustomer searchParams = []).
Proof.
  unfold PageConsole.raises, PageConsole.error_log, PageConsole.logged_errors,
    CustomerFormPage.CustomerFormPage, CustomerFormPage.try_catch,
    CustomerFormPage.bind, CustomerFormPage.await, CustomerFormPage.console_log,
    CustomerFormPage.console_error, CustomerFormPage.captureException,
    CustomerFormPage.fetch, CustomerFormPage.throw, CustomerFormPage.ret.
  destruct searchParams as [params | e0]; simpl.
  - destruct (params !! js "customerId") as [[|c cid]|] eqn:Hp; simpl.
    + split; [|reflexivity].
      intros e [H | (p & cid & [= <-] & Hp' & Hne & _)]; [discriminate|].
      rewrite Hp in Hp'. injection Hp' as <-. contradiction.
    + destruct (getCustomer (parseInt (c :: cid))) as [[customer|]|e0] eqn:Hget;
        simpl.
      * split; [|reflexivity].
        intros e [H | (p & cid' & [= <-] & Hp' & _ & Hg)]; [discriminate|].
        rewrite Hp in Hp'. injection Hp' as <-. congruence.
      * split; [|reflexivity].
        intros e [H | (p & cid' & [= <-] & Hp' & _ & Hg)]; [discriminate|].
        rewrite Hp in Hp'. injection Hp' as <-. congruence.
      * split.
        -- intros e [H | (p & cid' & [= <-] & Hp' & _ & Hg)]; [discriminate|].
           rewrite Hp in Hp'. injection Hp' as <-.
           rewrite Hget in Hg. injection Hg as <-.
           destruct (instanceof_Error e0); reflexivity.
        -- intros Hnone. exfalso. apply (Hnone e0). right.
           exists params, (c :: cid). repeat split; auto; discriminate.
    + split; [|reflexivity].
      intros e [H | (p & cid & [= <-] & Hp' & _)]; [discriminate|].
      rewrite Hp in Hp'. discriminate.
  - split.
    + intros e [[= <-] | (p & cid & H & _)]; [|discriminate].
      destruct (instanceof_Error e0); reflexivity.
    + intros Hnone. exfalso. apply (Hnone e0). left. reflexivity.
Qed.

(* ===================================================================== *)
(** * More on the migration runner ([db/migrate.ts]) *)
(* ===================================================================== *)

(** X14.  The runner never raises: whatever the migrator raises is caught.  It
    returns exactly when the migrator returned, and when it ends the process
    the exit code is 1, unless the migrator itself ended the process. *)
Theorem migrate_main_never_raises
    (migrate : string -> Migrate.M unit) (w : Migrate.Process) :
  (forall e, snd (Migrate.main migrate w) <> Migrate.Raised e)
  /\ (snd (Migrate.main migrate w) = Migrate.Returned tt
      <-> exists u, snd (migrate Migrate.migrationsFolder w) = Migrate.Returned u)
  /\ (forall code,
        snd (Migrate.main migrate w) = Migrate.Exited code ->
        (code = 1%Z /\ exists e, snd (migrate Migrate.migrationsFolder w)
                                 = Migrate.Raised e)
        \/ snd (migrate Migrate.migrationsFolder w) = Migrate.Exited code).
Proof.
  unfold Migrate.main, Migrate.try_catch, Migrate.bind.
  destruct (migrate Migrate.migrationsFolder w) as [w1 [u|e|code]]; simpl.
  - split; [discriminate|]. split.
    + split; eauto.
    + discriminate.
  - split; [discriminate|]. split.
    + split; [discriminate | intros [u H]; discriminate].
    + intros code [= <-]. left. eauto.
  - split; [discriminate|]. split.
    + split; [discriminate | intros [u H]; discriminate].
    + intros c [= <-]. right. reflexivity.
Qed.

(* ===================================================================== *)
(** * The route matcher of the authentication gate ([middleware.ts]) *)
(* ===================================================================== *)

Module Middleware.
Import Regex Patterns.

(** One character of a pattern text: a dot stands for any code unit but a
    line terminator, any other character for itself. *)
Definition pattern_char (a : ascii) (c : N) : bool :=
  if Ascii.eqb a "."%char then not_line_terminator c
  else N.eqb (N_of_ascii a) c.

Fixpoint literal (text : string) : regex :=
  match text with
  | EmptyString => Eps
  | String a rest => Cat (Cls (pattern_char a)) (literal rest)
  end.

Fixpoint alternation (rs : list regex) : regex :=
  match rs with
  | [] => Void
  | r :: rest => Alt r (alternation rest)
  end.

(** The alternatives of the lookahead, the end of input apart. *)
Definition excluded : list string :=
  ["api"; "_next/static"; "_next/image"; "favicon.ico"; "robots.txt";
   "images"; "login"]%string.

Definition slash : N := 47.

(** The one entry of [config.matcher], on a request path: a slash, then,
    provided that what follows neither begins with one of the alternatives
    nor is empty (the lookahead), any characters up to the end (the dot does
    not match a line terminator).  The framework matches the whole path. *)
Definition matcher (path : jsstring) : bool :=
  match path with
  | c :: rest =>
      (c =? slash)%N
      && neg_lookahead (alternation (map literal excluded)) rest
      && negb (match rest with [] => true | _ => false end)
      && test (Star (Cls not_line_terminator)) rest
  | [] => false
  end.

(** Whether a string begins with a pattern text. *)
Fixpoint begins_with (text : string) (s : jsstring) : bool :=
  match text, s with
  | EmptyString, _ => true
  | String a t, c :: s' => pattern_char a c && begins_with t s'
  | String _ _, [] => false
  end.

Lemma Matches_literal text : forall s,
  Matches (literal text) s <->
  length s = String.length text /\ begins_with text s = true.
Proof.
  induction text as [|a t IH]; intros s; simpl.
  - split.
    + intros H. minv H. auto.
    + intros [Hl _]. destruct s; [constructor | discriminate].
  - rewrite Matches_cat. split.
    + intros (s1 & s2 & -> & H1 & H2). minv H1.
      apply IH in H2 as [Hl Hb]. simpl. rewrite H0, Hb. auto.
    + intros [Hl Hb]. destruct s as [|c s]; [discriminate|].
      apply andb_prop in Hb as [Hc Hb]. injection Hl as Hl.
      exists [c], s. split; [reflexivity|].
      split; [constructor; exact Hc | apply IH; auto].
Qed.

Lemma Matches_alternation rs s :
  Matches (alternation rs) s <-> exists r, In r rs /\ Matches r s.
Proof.
  induction rs as [|r rest IH]; simpl.
  - split; [intros H; minv H | intros (r & [] & _)].
  - split.
    + intros H. minv H; [eauto|].
      apply IH in H3 as (r' & Hin & Hm). eauto.
    + intros (r' & [<- | Hin] & Hm); [apply MAltL; exact Hm|].
      apply MAltR. apply IH. eauto.
Qed.

Lemma begins_with_firstn text : forall s n,
  begins_with text (firstn n s) = true -> begins_with text s = true.
Proof.
  induction text as [|a t IH]; intros s n; simpl; [reflexivity|].
  destruct n, s; simpl; try discriminate.
  intros H. apply andb_prop in H as [Hc H].
  rewrite Hc. simpl. eapply IH. exact H.
Qed.

Lemma begins_with_prefix text : forall s,
  begins_with text s = true ->
  (String.length text <= length s)%nat
  /\ begins_with text (firstn (String.length text) s) = true.
Proof.
  induction text as [|a t IH]; intros s; simpl.
  - intros _. split; [lia | reflexivity].
  - destruct s as [|c s]; [discriminate|]. intros H.
    apply andb_prop in H as [Hc H]. apply IH in H as [Hl Hb].
    simpl. rewrite Hc, Hb. split; [lia | reflexivity].
Qed.

(** The lookahead fails exactly when the input begins with one of the
    alternatives. *)
Lemma lookahead_excluded s :
  neg_lookahead (alternation (map literal excluded)) s
  = negb (existsb (fun text => begins_with text s) excluded).
Proof.
  unfold neg_lookahead. f_equal. apply eq_true_iff_eq.
  rewrite !existsb_exists. split.
  - intros (n & Hn & Ht). apply test_Matches in Ht.
    apply Matches_alternation in Ht as (r & Hr & Hm).
    apply in_map_iff in Hr as (text & <- & Hin).
    apply Matches_literal in Hm as [_ Hb].
    exists text. split; [exact Hin|]. eapply begins_with_firstn. exact Hb.
  - intros (text & Hin & Hb).
    apply begins_with_prefix in Hb as [Hl Hb].
    exists (String.length text). split.
    + apply in_seq. lia.
    + apply test_Matches. apply Matches_alternation.
      exists (literal text). split; [apply in_map; exact Hin|].
      apply Matches_literal. split; [|exact Hb].
      rewrite length_firstn. lia.
Qed.

Lemma Matches_star_cls p s :
  Matches (Star (Cls p)) s <-> Forall (fun c => p c = true) s.
Proof.
  split.
  - intros H. remember (Star (Cls p)) as r eqn:Hr.
    induction H; try discriminate; [constructor|].
    injection Hr as ->. minv H. simpl. constructor; auto.
  - induction 1 as [|c s Hc _ IH]; [constructor|].
    change (c :: s) with ([c] ++ s).
    constructor; [constructor; exact Hc | exact IH].
Qed.

Lemma test_any s :
  test (Star (Cls not_line_terminator)) s = forallb not_line_terminator s.
Proof.
  apply eq_true_iff_eq.
  rewrite test_Matches, Matches_star_cls, forallb_forall, List.Forall_forall.
  tauto.
Qed.

(** The matcher, without the pattern engine. *)
Lemma matcher_direct path :
  matcher path
  = match path with
    | c :: (_ :: _) as rest =>
        (c =? slash)%N
        && negb (existsb (fun text => begins_with text rest) excluded)
        && forallb not_line_terminator rest
    | _ => false
    end.
Proof.
  unfold matcher. destruct path as [|c [|d rest]].
  - reflexivity.
  - rewrite !andb_false_r. reflexivity.
  - rewrite lookahead_excluded, test_any. rewrite andb_true_r. reflexivity.
Qed.

End Middleware.

(** X15.  The authentication gate runs on a request path exactly when the path
    is a slash followed by at least one character, has no line terminator
    after the slash, and what follows the slash does not begin with api,
    _next/static, _next/image, favicon.ico, robots.txt, images or login (a dot
    standing for any character). *)
Theorem middleware_matcher_characterised (path : jsstring) :
  Middleware.matcher path = true <->
  exists rest,
    path = Middleware.slash :: rest
    /\ rest <> []
    /\ Forall (fun c => Patterns.not_line_terminator c = true) rest
    /\ (forall text, In text Middleware.excluded ->
          Middleware.begins_with text rest = false).
Proof.
  rewrite Middleware.matcher_direct.
  destruct path as [|c [|d rest]].
  - split; [discriminate | intros (rest & H & _); discriminate].
  - split; [discriminate|].
    intros (rest & H & Hne & _). injection H as _ <-. contradiction.
  - rewrite !andb_true_iff, N.eqb_eq, negb_true_iff, forallb_forall,
      <- List.Forall_forall.
    split.
    + intros [[-> Hex] Hall]. exists (d :: rest).
      split; [reflexivity|]. split; [discriminate|]. split; [exact Hall|].
      intros text Hin.
      destruct (Middleware.begins_with text (d :: rest)) eqn:Hb; [|reflexivity].
      assert (Ht : existsb (fun text => Middleware.begins_with text (d :: rest))
                     Middleware.excluded = true)
        by (apply existsb_exists; eauto).
      congruence.
    + intros (r & H & _ & Hall & Hex). injection H as -> <-.
      split; [split; [reflexivity|] | exact Hall].
      destruct (existsb _ Middleware.excluded) eqn:Ht; [|reflexivity].
      apply existsb_exists in Ht as (text & Hin & Hb).
      rewrite (Hex text Hin) in Hb. discriminate.
Qed.

Lemma begins_with_itself (text : string) (rest : jsstring) :
  Middleware.begins_with text (js text ++ rest) = true.
Proof.
  induction text as [|a t IH]; simpl; [reflexivity|].
  fold (js t). rewrite IH, andb_true_r.
  unfold Middleware.pattern_char.
  destruct (Ascii.eqb a "."%char) eqn:Ha.
  - apply Ascii.eqb_eq in Ha. subst a. reflexivity.
  - apply N.eqb_refl.
Qed.

(** X16.  The gate does not run on the root path, nor on any path that begins
    with /api, /_next/static, /_next/image, /favicon.ico, /robots.txt, /images
    or /login, whatever follows: /login, /login/callback and /loginx alike.
    It runs on every path under /customers, /tickets and /home that has no
    line terminator. *)
Theorem middleware_matcher_routes :
  Middleware.matcher (js "/") = false
  /\ (forall text rest,
        In text Middleware.excluded ->
        Middleware.matcher (Middleware.slash :: js text ++ rest) = false)
  /\ (forall rest,
        forallb Patterns.not_line_terminator rest = true ->
        Middleware.matcher (js "/customers" ++ rest) = true
        /\ Middleware.matcher (js "/tickets" ++ rest) = true
        /\ Middleware.matcher (js "/home" ++ rest) = true).
Proof.
  split; [reflexivity|]. split.
  - intros text rest Hin.
    assert (Hb : existsb (fun t => Middleware.begins_with t (js text ++ rest))
                   Middleware.excluded = true).
    { apply existsb_exists. exists text. split; [exact Hin|].
      apply begins_with_itself. }
    rewrite Middleware.matcher_direct.
    destruct (js text ++ rest) as [|d r] eqn:Hs; [reflexivity|].
    rewrite Hb, andb_false_r. reflexivity.
  - intros rest Hrest.
    rewrite !Middleware.matcher_direct. simpl. rewrite Hrest.
    repeat split; reflexivity.
Qed.

Example gate_skips_login_lookalike :
  Middleware.matcher (js "/loginx") = false.
Proof. vm_compute. reflexivity. Qed.

Example gate_runs_on_about :
  Middleware.matcher (js "/about") = true.
Proof. vm_compute. reflexivity. Qed.

Example gate_runs_on_customer_form :
  Middleware.matcher (js "/customers/form") = true.
Proof. vm_compute. reflexivity. Qed.

(* ===================================================================== *)
(** * The data a validator returns *)
(* ===================================================================== *)

Module OutputFacts.
Import Zod ZodFacts ObjectFacts.

Lemma js_inj (a b : string) : js a = js b -> a = b.
Proof.
  unfold js. intros H.
  assert (Hl : list_ascii_of_string a = list_ascii_of_string b).
  { revert H. generalize (list_ascii_of_string a), (list_ascii_of_string b).
    induction l as [|x l IH]; intros [|y l']; simpl; intros H;
      try discriminate; [reflexivity|].
    injection H as Hxy Hrest. f_equal; [|auto].
    rewrite <- (ascii_N_embedding x), <- (ascii_N_embedding y), Hxy.
    reflexivity. }
  rewrite <- (string_of_list_ascii_of_string a),
    <- (string_of_list_ascii_of_string b), Hl.
  reflexivity.
Qed.

Lemma jsstring_eqb_refl k : jsstring_eqb k k = true.
Proof. unfold jsstring_eqb. apply bool_decide_eq_true_2. reflexivity. Qed.

Lemma jsstring_eqb_js_ne a b : a <> b -> jsstring_eqb (js a) (js b) = false.
Proof.
  intros Hne. unfold jsstring_eqb. apply bool_decide_eq_false_2.
  intros H. apply Hne. apply js_inj. exact H.
Qed.

(** The entry of one shape key in the parsed value. *)
Definition entry (props : list (jsstring * jsval)) (key : string)
    : list (jsstring * jsval) :=
  match get_prop (js key) props with
  | JUndefined => if has_prop (js key) props then [(js key, JUndefined)] else []
  | v => [(js key, v)]
  end.

Lemma strip_entries fields props :
  strip fields props = flat_map (fun kv => entry props (fst kv)) fields.
Proof. reflexivity. Qed.

Lemma entry_keys props key k v : In (k, v) (entry props key) -> k = js key.
Proof.
  unfold entry.
  destruct (get_prop (js key) props);
    try (intros [[= <- _] | []]; reflexivity).
  destruct (has_prop (js key) props); [|intros []].
  intros [[= <- _] | []]. reflexivity.
Qed.

Lemma entry_get props key :
  get_prop (js key) (entry props key) = get_prop (js key) props.
Proof.
  unfold entry.
  destruct (get_prop (js key) props) eqn:Hv; simpl;
    rewrite ?jsstring_eqb_refl; try reflexivity.
  destruct (has_prop (js key) props); simpl;
    rewrite ?jsstring_eqb_refl; reflexivity.
Qed.

Lemma entry_has props key :
  has_prop (js key) (entry props key)
  = match get_prop (js key) props with
    | JUndefined => has_prop (js key) props
    | _ => true
    end.
Proof.
  unfold entry, has_prop at 1.
  destruct (get_prop (js key) props) eqn:Hv; simpl;
    rewrite ?jsstring_eqb_refl; try reflexivity.
  destruct (has_prop (js key) props); simpl;
    rewrite ?jsstring_eqb_refl; reflexivity.
Qed.

Lemma get_prop_app key a b :
  get_prop key (a ++ b)
  = if has_prop key a then get_prop key a else get_prop key b.
Proof.
  unfold has_prop. induction a as [|[k v] a IH]; simpl; [reflexivity|].
  destruct (jsstring_eqb k key); simpl; [reflexivity | exact IH].
Qed.

Lemma has_prop_app key a b :
  has_prop key (a ++ b) = has_prop key a || has_prop key b.
Proof. unfold has_prop. apply existsb_app. Qed.

Lemma has_prop_other props key key' :
  key <> key' -> has_prop (js key') (entry props key) = false.
Proof.
  intros Hne. unfold entry, has_prop.
  destruct (get_prop (js key) props); simpl;
    rewrite ?(jsstring_eqb_js_ne key key' Hne); try reflexivity.
  destruct (existsb _ props); simpl;
    rewrite ?(jsstring_eqb_js_ne key key' Hne); reflexivity.
Qed.

Lemma strip_without fields props key :
  ~ In key (map fst fields) ->
  has_prop (js key) (strip fields props) = false.
Proof.
  rewrite strip_entries.
  induction fields as [|[k t] rest IH]; simpl; intros Hnot; [reflexivity|].
  rewrite has_prop_app, has_prop_other, IH by tauto. reflexivity.
Qed.

Lemma get_prop_absent key props :
  has_prop key props = false -> get_prop key props = JUndefined.
Proof.
  unfold has_prop. induction props as [|[k v] props IH]; simpl; [reflexivity|].
  destruct (jsstring_eqb k key); simpl; [discriminate | exact IH].
Qed.

(** A shape key keeps, in the parsed value, the value and the presence it
    has in the input. *)
Lemma strip_key fields props key :
  List.NoDup (map fst fields) ->
  In key (map fst fields) ->
  get_prop (js key) (strip fields props) = get_prop (js key) props
  /\ has_prop (js key) (strip fields props)
     = match get_prop (js key) props with
       | JUndefined => has_prop (js key) props
       | _ => true
       end.
Proof.
  rewrite strip_entries.
  induction fields as [|[k t] rest IH]; simpl; intros Hnd Hin; [tauto|].
  inversion Hnd as [|? ? Hk Hrest]; subst.
  rewrite get_prop_app, has_prop_app.
  destruct (string_dec k key) as [-> | Hne].
  - pose proof (strip_without rest props key Hk) as Hw.
    rewrite strip_entries in Hw.
    rewrite Hw, orb_false_r, entry_has, entry_get.
    split; [|reflexivity].
    destruct (get_prop (js key) props) eqn:Hv; try reflexivity.
    destruct (has_prop (js key) props); [reflexivity|].
    apply get_prop_absent. exact Hw.
  - destruct Hin as [Heq | Hin]; [contradiction|].
    rewrite has_prop_other by assumption. simpl. apply IH; assumption.
Qed.

Lemma strip_keys fields props k v :
  In (k, v) (strip fields props) ->
  exists key, In key (map fst fields) /\ k = js key.
Proof.
  rewrite strip_entries, in_flat_map. intros ([key t] & Hin & He).
  exists key. split; [apply in_map_iff; exists (key, t); auto|].
  eapply entry_keys. exact He.
Qed.

(** Parsing looks at the input only through the shape keys. *)
Lemma parse_shape_ext fields props props' :
  (forall key, In key (map fst fields) ->
     get_prop (js key) props' = get_prop (js key) props) ->
  parse_shape fields props' = parse_shape fields props.
Proof.
  induction fields as [|[k t] rest IH]; simpl; intros H; [reflexivity|].
  rewrite (H k) by auto. rewrite IH by auto. reflexivity.
Qed.

Lemma strip_ext fields props props' :
  (forall key, In key (map fst fields) ->
     get_prop (js key) props' = get_prop (js key) props
     /\ has_prop (js key) props'
        = match get_prop (js key) props with
          | JUndefined => has_prop (js key) props
          | _ => true
          end) ->
  strip fields props' = strip fields props.
Proof.
  rewrite !strip_entries.
  induction fields as [|[k t] rest IH]; simpl; intros H; [reflexivity|].
  rewrite IH by auto. f_equal.
  destruct (H k) as [Hg Hh]; [auto|].
  unfold entry. rewrite Hg, Hh.
  destruct (get_prop (js k) props); reflexivity.
Qed.

(** The data of a successful validation: its keys are keys of the schema,
    the schema keys have the values of the input, and validating it again
    returns it unchanged. *)
Lemma validated_data schema props data :
  List.NoDup (map fst (shape schema)) ->
  safeParse schema (JObject props) = Normal (SafeParseSuccess data) ->
  data = JObject (strip (shape schema) props)
  /\ (forall k v, In (k, v) (strip (shape schema) props) ->
        exists key, In key (map fst (shape schema)) /\ k = js key)
  /\ (forall key, In key (map fst (shape schema)) ->
        get_prop (js key) (strip (shape schema) props)
        = get_prop (js key) props)
  /\ safeParse schema data = Normal (SafeParseSuccess data).
Proof.
  intros Hnd Hs.
  destruct (safeParse_cases schema (JObject props)) as [[Hnil Hs'] | [_ Hs']];
    rewrite Hs' in Hs; [|discriminate].
  injection Hs as <-. simpl.
  split; [reflexivity|]. split; [apply strip_keys|].
  split; [intros key Hin; apply strip_key; assumption|].
  destruct (safeParse_cases schema (JObject (strip (shape schema) props)))
    as [[_ Hs2] | [Hne _]].
  - rewrite Hs2. simpl. do 2 f_equal. f_equal.
    apply strip_ext. intros key Hin. apply strip_key; assumption.
  - exfalso. apply Hne. simpl in *.
    rewrite (parse_shape_ext (shape schema) props) ; [exact Hnil|].
    intros key Hin. apply strip_key; assumption.
Qed.

End OutputFacts.

Lemma validator_keys_distinct (schema : Zod.ZodObject) :
  schema = Validators.insertCustomerSchema
  \/ schema = Validators.insertTicketSchema ->
  List.NoDup (map fst (Zod.shape schema)).
Proof.
  intros [-> | ->];
    [apply CustomerValidation.customer_keys_distinct
    | apply TicketValidation.ticket_keys_distinct].
Qed.

(** X7.  For the customer and the ticket insert validators alike: the data of a
    successful validation has only keys of the schema (a key the schema does
    not know never reaches it), carries for every schema key the value the
    input has, and validates again to itself. *)
Theorem validated_input_round_trip
    (schema : Zod.ZodObject) (props : list (jsstring * jsval)) (data : jsval) :
  schema = Validators.insertCustomerSchema
  \/ schema = Validators.insertTicketSchema ->
  Zod.safeParse schema (JObject props) = Normal (Zod.SafeParseSuccess data) ->
  (exists out,
     data = JObject out
     /\ (forall k v, In (k, v) out ->
           exists key, In key (map fst (Zod.shape schema)) /\ k = js key)
     /\ (forall key, In key (map fst (Zod.shape schema)) ->
           get_prop (js key) out = get_prop (js key) props))
  /\ Zod.safeParse schema data = Normal (Zod.SafeParseSuccess data).
Proof.
  intros Hschema Hs.
  destruct (OutputFacts.validated_data schema props data
              (validator_keys_distinct schema Hschema) Hs)
    as (Hd & Hkeys & Hvals & Hagain).
  split; [|exact Hagain].
  exists (Zod.strip (Zod.shape schema) props). auto.
Qed.

Module SampleForged.

(** A ticket input with a key the schema does not know. *)
Definition props : list (jsstring * jsval) :=
  [(js "id", JString (js "(New)"));
   (js "isAdmin", JBoolean true);
   (js "customerId", JNumber 1);
   (js "title", JString (js "Cracked screen"))].

Definition validated : jsval :=
  JObject [(js "id", JString (js "(New)"));
           (js "customerId", JNumber 1);
           (js "title", JString (js "Cracked screen"))].

End SampleForged.

Lemma validated_input_round_trip_witness :
  (Validators.insertTicketSchema = Validators.insertCustomerSchema
   \/ Validators.insertTicketSchema = Validators.insertTicketSchema)
  /\ Zod.safeParse Validators.insertTicketSchema (JObject SampleForged.props)
     = Normal (Zod.SafeParseSuccess SampleForged.validated)
  /\ Zod.safeParse Validators.insertTicketSchema SampleForged.validated
     = Normal (Zod.SafeParseSuccess SampleForged.validated).
Proof.
  assert (H1 : Validators.insertTicketSchema = Validators.insertCustomerSchema
               \/ Validators.insertTicketSchema = Validators.insertTicketSchema)
    by (right; reflexivity).
  assert (H2 : Zod.safeParse Validators.insertTicketSchema
                 (JObject SampleForged.props)
               = Normal (Zod.SafeParseSuccess SampleForged.validated))
    by (vm_compute; reflexivity).
  split; [exact H1|]. split; [exact H2|].
  exact (proj2 (validated_input_round_trip Validators.insertTicketSchema
                  SampleForged.props SampleForged.validated H1 H2)).
Defined.

(* ===================================================================== *)
(** * The defaults of the customer form ([CustomerForm.tsx]) *)
(* ===================================================================== *)

(** The lines of the customer form that the repository's notes quote:
    [id: customer?.id || 0], [firstName: customer?.firstName || ""] and
    [lastName: customer?.lastName || ""]. *)
Module CustomerForm.

Section Defaults.
Variable number : Type.
Variable zero : number.

(** The truth value of a number in a condition: false for zero and for
    [NaN]. *)
Variable truthy_number : number -> bool.

(** [v || d] on numbers and on strings: [d] when [v] is missing or counts
    as false; the only string that counts as false is the empty one. *)
Definition or_number (v : maybe number) (d : number) : number :=
  match v with
  | Value n => if truthy_number n then n else d
  | _ => d
  end.

Definition or_string (v : maybe jsstring) (d : jsstring) : jsstring :=
  match v with
  | Value (c :: s) => c :: s
  | _ => d
  end.

Record Defaults : Type := mkDefaults {
  d_id : number;
  d_firstName : jsstring;
  d_lastName : jsstring
}.

Definition defaultValues (customer : maybe (Customer.t number)) : Defaults :=
  {| d_id := or_number (customer ?. (fun c => Value (Customer.id c))) zero;
     d_firstName :=
       or_string (customer ?. (fun c => Value (Customer.firstName number c)))
         (js "");
     d_lastName :=
       or_string (customer ?. (fun c => Value (Customer.lastName number c)))
         (js "") |}.

End Defaults.

End CustomerForm.

(** X17.  In the customer form, the logical-or fallback of the two quoted text
    fields gives, for every optional customer, what the nullish fallback of
    the ticket form would give: the only string it replaces is the empty one,
    by the empty default.  The id falls back to 0 when there is no customer
    and also when the customer's id counts as false. *)
Theorem CustomerForm_or_defaults
    (number : Type) (zero : number) (truthy_number : number -> bool)
    (customer : maybe (Customer.t number)) :
  let d := CustomerForm.defaultValues number zero truthy_number customer in
  CustomerForm.d_firstName number d
  = customer ?. (fun c => Value (Customer.firstName number c)) ?? js ""
  /\ CustomerForm.d_lastName number d
     = customer ?. (fun c => Value (Customer.lastName number c)) ?? js ""
  /\ ((forall c, customer <> Value c) -> CustomerForm.d_id number d = zero)
  /\ (forall c, customer = Value c ->
        CustomerForm.d_id number d
        = if truthy_number (Customer.id c) then Customer.id c else zero).
Proof.
  intros d. subst d. unfold CustomerForm.defaultValues. simpl.
  destruct customer as [| |c]; simpl.
  - repeat split; auto; discriminate.
  - repeat split; auto; discriminate.
  - repeat split.
    + destruct (Customer.firstName number c); reflexivity.
    + destruct (Customer.lastName number c); reflexivity.
    + intros H. exfalso. apply (H c). reflexivity.
    + intros c' [= <-]. reflexivity.
Qed.
